(** * go-sdk: jobkit management server, r2 request options, assert helpers

    A shallow embedding of the parts of the repository that the
    specification talks about:

    - [jobkit]: the HTTP management surface of the job manager
      (jobkit/managent_server.go), the jobkit configuration and the
      dashboard template;
    - [cron]: the job manager the management surface drives.  Its source
      is not part of the files at hand, so it is modelled from the
      specification;
    - [r2]: the [TLSClientConfig] request option, over an explicit heap;
    - [assert]: the assertion logic ([areEqual], [getLength], ...), over
      an abstract [reflect] package.

    Go's mutable objects are modelled by explicit state passing. *)

From stdpp Require Import gmap strings list sorting pretty.
From Stdlib Require Import ZArith.

Local Open Scope string_scope.
Local Open Scope Z_scope.

(** ** A small state monad *)

Definition M (S A : Type) : Type := S -> A * S.

Definition ret {S A} (a : A) : M S A := fun s => (a, s).

Definition bind {S A B} (c : M S A) (k : A -> M S B) : M S B :=
  fun s => let '(a, s') := c s in k a s'.

Notation "'do' x <- c ; k" := (bind c (fun x => k))
  (at level 10, x name, c at level 100, k at level 200).
Notation "'do' ' p <- c ; k" := (bind c (fun x => match x with p => k end))
  (at level 10, p pattern, c at level 100, k at level 200).

(** ** Shared data: errors, times, invocation records, job status *)

(** Go's [error] values that occur in the modelled code.  [nil] is
    [None : option error]. *)
Inductive error : Type :=
  | ErrJobNotFound (jobName : string)      (* the typed failure "not found" *)
  | ErrJobBusy (jobName : string)          (* the typed failure "busy" *)
  | ErrParameterMissing (key : string)     (* web.Ctx.RouteParam *)
  | Errorf (msg : string).                 (* fmt.Errorf *)

#[global] Instance error_eq_dec : EqDecision error.
Proof. solve_decision. Defined.

(** An instant, counted from Go's zero [time.Time]; [IsZero] holds of the
    zero instant only.  Durations are counted in the same unit. *)
Definition Time := Z.
Definition Duration := Z.
Definition IsZero (t : Time) : bool := t =? 0.

(** One run of one job, as the status query and the dashboard see it. *)
Record JobInvocation : Type := {
  ID : Z;
  Started : Time;
  Finished : Time;
  Timeout : Time;
  Cancelled : Time;
  Elapsed : Duration;
  Status : string;
  Err : option error
}.

Definition with_Cancelled (r : JobInvocation) (t : Time) : JobInvocation :=
  {| ID := ID r; Started := Started r; Finished := Finished r;
     Timeout := Timeout r; Cancelled := t;
     Elapsed := Elapsed r; Status := Status r; Err := Err r |}.

(** The per-job snapshot a status query returns (the fields the dashboard
    template reads from [$job]). *)
Record JobStatus : Type := {
  Name : string;
  Disabled : bool;
  Current : option JobInvocation;
  NextRuntime : Time;
  Last : option JobInvocation;
  History : list JobInvocation
}.

(** The snapshot [jm.Status()] returns (the template reads [.Jobs]). *)
Record ManagerStatus : Type := { Jobs : list JobStatus }.

(** ** web: what a handler returns *)

Module web.

(** The values the handlers of the management server hand to
    [web.JSON.Result] and to the view. *)
Inductive Payload : Type :=
  | PayloadStatus (s : ManagerStatus)
  | PayloadJob (s : option JobStatus)
  | PayloadString (s : string).

Inductive Result : Type :=
  | JSON_OK
  | JSON_InternalError (err : error)
  | JSON_BadRequest (err : error)
  | JSON_Result (response : Payload)
  | View_View (viewName : string) (viewModel : Payload).

(** A result is a success when it is not one of the error responses. *)
Definition is_success (r : Result) : bool :=
  match r with
  | JSON_OK | JSON_Result _ | View_View _ _ => true
  | JSON_InternalError _ | JSON_BadRequest _ => false
  end.

(** The error an error response carries. *)
Definition failure_of (r : Result) : option error :=
  match r with
  | JSON_InternalError e | JSON_BadRequest e => Some e
  | _ => None
  end.

Inductive Method : Type := GET | POST.

End web.

(** ** The job manager, as the management server uses it

    [cron.JobManager] is defined outside the files at hand.  The
    management server only calls the seven methods below on it; every
    method may read and change the manager, so each is a computation over
    the manager's state. *)

Module jm.

Class Ops (JM : Type) : Type := {
  Status : M JM ManagerStatus;
  Job : string -> M JM (option JobStatus * option error);
  IsRunning : M JM bool;
  RunJob : string -> M JM (option error);
  CancelJob : string -> M JM (option error);
  EnableJob : string -> M JM (option error);
  DisableJob : string -> M JM (option error)
}.

(** The methods by name, to record which ones a handler invokes. *)
Inductive Call : Type :=
  | CallStatus
  | CallJob (jobName : string)
  | CallIsRunning
  | CallRunJob (jobName : string)
  | CallCancelJob (jobName : string)
  | CallEnableJob (jobName : string)
  | CallDisableJob (jobName : string).

(** The query operations of the manager; the others are its control
    operations. *)
Definition is_query (c : Call) : bool :=
  match c with
  | CallStatus | CallJob _ | CallIsRunning => true
  | _ => false
  end.

(** A manager together with the log of the calls made on it. *)
Definition Traced (JM : Type) : Type := JM * list Call.

Definition traced {JM A} (c : Call) (op : M JM A) : M (Traced JM) A :=
  fun '(jm, log) => let '(a, jm') := op jm in (a, (jm', (log ++ [c])%list)).

#[global] Instance Traced_Ops {JM} `{Ops JM} : Ops (Traced JM) := {|
  Status := traced CallStatus Status;
  Job n := traced (CallJob n) (Job n);
  IsRunning := traced CallIsRunning IsRunning;
  RunJob n := traced (CallRunJob n) (RunJob n);
  CancelJob n := traced (CallCancelJob n) (CancelJob n);
  EnableJob n := traced (CallEnableJob n) (EnableJob n);
  DisableJob n := traced (CallDisableJob n) (DisableJob n)
|}.

End jm.

(** ** Helpers of other packages that jobkit calls *)

Module configutil.

(** Modelled from the spec: [configutil.CoalesceInt] is called by
    [Config.MaxLogBytesOrDefault] and is defined outside the files at
    hand.  The specification speaks of a configured size "with documented
    defaults when unset"; an unset Go [int] is zero.  Go's [int] is shown
    as [Z]: no arithmetic is done on it here. *)
Definition CoalesceInt (value defaultValue : Z) : Z :=
  if value =? 0 then defaultValue else value.

End configutil.

Module template.

(** Modelled from the spec: the view function [reverse] the dashboard
    template pipes a job's history through is defined outside the files
    at hand.  The specification asks for "a reverse-chronological history
    list" of a history that "preserves finish order". *)
Definition reverse {A : Type} (collection : list A) : list A :=
  rev collection.

End template.

(** ** jobkit: the management server (jobkit/managent_server.go) *)

Module jobkit.

Import web.

Section management_server.

Context {JM : Type} `{!jm.Ops JM}.

(** The request context and its route parameters belong to the web
    package; [RouteParam] returns Go's pair of a value and an error. *)
Variable Ctx : Type.
Variable RouteParam : Ctx -> string -> string * option error.

Definition Handler : Type := Ctx -> M JM Result.

(** [GET /] *)
Definition handle_index : Handler := fun r =>
  do status <- jm.Status;
  ret (View_View "index" (PayloadStatus status)).

(** [GET /healthz] *)
Definition handle_healthz : Handler := fun _ =>
  do running <- jm.IsRunning;
  if (running : bool) then ret JSON_OK
  else ret (JSON_InternalError
              (Errorf "job manager is stopped or in an inconsistent state")).

(** [GET /api/jobs] *)
Definition handle_api_jobs : Handler := fun _ =>
  do status <- jm.Status;
  ret (JSON_Result (PayloadStatus status)).

(** [GET /api/job.status/:jobName].  The error [jm.Job] returns is
    assigned and never read; the handler then calls [jm.RunJob]. *)
Definition handle_job_status : Handler := fun r =>
  let '(jobName, err) := RouteParam r "jobName" in
  match err with
  | Some err => ret (JSON_BadRequest err)
  | None =>
      do '(status, _) <- jm.Job jobName;
      do err <- jm.RunJob jobName;
      match err with
      | Some err => ret (JSON_BadRequest err)
      | None => ret (JSON_Result (PayloadJob status))
      end
  end.

(** [POST /api/job.run/:jobName] *)
Definition handle_job_run : Handler := fun r =>
  let '(jobName, err) := RouteParam r "jobName" in
  match err with
  | Some err => ret (JSON_BadRequest err)
  | None =>
      do err <- jm.RunJob jobName;
      match err with
      | Some err => ret (JSON_BadRequest err)
      | None => ret JSON_OK
      end
  end.

(** [POST /api/job.cancel/:jobName] *)
Definition handle_job_cancel : Handler := fun r =>
  let '(jobName, err) := RouteParam r "jobName" in
  match err with
  | Some err => ret (JSON_BadRequest err)
  | None =>
      do err <- jm.CancelJob jobName;
      match err with
      | Some err => ret (JSON_BadRequest err)
      | None => ret JSON_OK
      end
  end.

(** [POST /api/job.disable/:jobName] *)
Definition handle_job_disable : Handler := fun r =>
  let '(jobName, err) := RouteParam r "jobName" in
  match err with
  | Some err => ret (JSON_BadRequest err)
  | None =>
      do err <- jm.DisableJob jobName;
      match err with
      | Some err => ret (JSON_BadRequest err)
      | None => ret (JSON_Result (PayloadString (jobName ++ " disabled")))
      end
  end.

(** [POST /api/job.enable/:jobName] *)
Definition handle_job_enable : Handler := fun r =>
  let '(jobName, err) := RouteParam r "jobName" in
  match err with
  | Some err => ret (JSON_BadRequest err)
  | None =>
      do err <- jm.EnableJob jobName;
      match err with
      | Some err => ret (JSON_BadRequest err)
      | None => ret (JSON_Result (PayloadString (jobName ++ " enabled")))
      end
  end.

(** The routes [NewManagementServer] registers, in source order. *)
Definition NewManagementServer : list (Method * string * Handler) :=
  [ (GET, "/", handle_index);
    (GET, "/healthz", handle_healthz);
    (GET, "/api/jobs", handle_api_jobs);
    (GET, "/api/job.status/:jobName", handle_job_status);
    (POST, "/api/job.run/:jobName", handle_job_run);
    (POST, "/api/job.cancel/:jobName", handle_job_cancel);
    (POST, "/api/job.disable/:jobName", handle_job_disable);
    (POST, "/api/job.enable/:jobName", handle_job_enable) ].

(** The handler registered for a method and a route pattern. *)
Definition route (m : Method) (pattern : string) : option Handler :=
  snd <$> List.find
    (fun e => match e.1.1, m with
              | GET, GET | POST, POST => String.eqb e.1.2 pattern
              | _, _ => false
              end) NewManagementServer.

(** The four control endpoints, each with the manager operation its
    handler calls. *)
Inductive Control : Type :=
  | job_run | job_cancel | job_enable | job_disable.

Definition control_pattern (c : Control) : string :=
  match c with
  | job_run => "/api/job.run/:jobName"
  | job_cancel => "/api/job.cancel/:jobName"
  | job_enable => "/api/job.enable/:jobName"
  | job_disable => "/api/job.disable/:jobName"
  end.

Definition control_handler (c : Control) : Handler :=
  match c with
  | job_run => handle_job_run
  | job_cancel => handle_job_cancel
  | job_enable => handle_job_enable
  | job_disable => handle_job_disable
  end.

Definition control_operation (c : Control) : string -> M JM (option error) :=
  match c with
  | job_run => jm.RunJob
  | job_cancel => jm.CancelJob
  | job_enable => jm.EnableJob
  | job_disable => jm.DisableJob
  end.

End management_server.

Arguments Handler JM Ctx : clear implicits.
Arguments handle_index {JM _ Ctx} r.
Arguments handle_healthz {JM _ Ctx} r.
Arguments handle_api_jobs {JM _ Ctx} r.
Arguments handle_job_status {JM _ Ctx} RouteParam r.
Arguments handle_job_run {JM _ Ctx} RouteParam r.
Arguments handle_job_cancel {JM _ Ctx} RouteParam r.
Arguments handle_job_disable {JM _ Ctx} RouteParam r.
Arguments handle_job_enable {JM _ Ctx} RouteParam r.
Arguments NewManagementServer {JM _ Ctx} RouteParam.
Arguments route {JM _ Ctx} RouteParam m pattern.
Arguments control_handler {JM _ Ctx} RouteParam c.
Arguments control_operation {JM _} c.

(** The call a control endpoint makes on the manager. *)
Definition control_call (c : Control) (jobName : string) : jm.Call :=
  match c with
  | job_run => jm.CallRunJob jobName
  | job_cancel => jm.CallCancelJob jobName
  | job_enable => jm.CallEnableJob jobName
  | job_disable => jm.CallDisableJob jobName
  end.

(** The handlers of the routes with a [:jobName] parameter. *)
Inductive NamedRoute : Type :=
  | route_status
  | route_control (c : Control).

Definition named_handler {JM : Type} `{!jm.Ops JM} {Ctx : Type}
    (RouteParam : Ctx -> string -> string * option error) (n : NamedRoute)
  : Handler JM Ctx :=
  match n with
  | route_status => handle_job_status RouteParam
  | route_control c => control_handler RouteParam c
  end.

(** *** The configuration (jobkit/config.go) *)

(** The fields of other packages' configuration types ([cron.Config],
    [logger.Config], [web.Config], ...) are kept together in [Embedded]. *)
Record Config (Embedded : Type) : Type := {
  MaxLogBytes : Z;
  DisableManagementServer : bool;
  embedded : Embedded
}.
Arguments MaxLogBytes {Embedded} c.
Arguments DisableManagementServer {Embedded} c.
Arguments embedded {Embedded} c.

Section config.

(** The constant [DefaultMaxLogBytes] is declared outside the files at
    hand. *)
Variable DefaultMaxLogBytes : Z.
Context {Embedded : Type}.

Definition MaxLogBytesOrDefault (c : Config Embedded) : Z :=
  configutil.CoalesceInt (MaxLogBytes c) DefaultMaxLogBytes.

End config.

(** *** The dashboard ([indexTemplate])

    The rendered page is kept as a tree: what a pipeline such as
    [{{ $ji.Started | rfc3339 }}] prints is the constructor [rfc3339]
    applied to the value. *)

Inductive Inline : Type :=
  | text (s : string)
  | span (class : option string) (s : string)
  | code (e : error)
  | show_error (e : error)
  | rfc3339 (t : Time)
  | since_utc (t : Time)
  | show_duration (d : Duration)
  | show_id (id : Z).

Inductive HistoryRow : Type :=
  | InvocationRow (class : string) (cells : list Inline)
  | NoHistoryRow.

Inductive IndexBody : Type :=
  | JobsTable (jobs : list (list Inline * list HistoryRow))
  | NoJobsLoaded.

Definition time_or_dash (t : Time) : Inline :=
  if IsZero t then text "-" else rfc3339 t.

(** The body of [{{ range $index, $ji := $job.History | reverse }}]. *)
Definition render_invocation (ji : JobInvocation) : HistoryRow :=
  InvocationRow
    (if String.eqb "failed" (Status ji) then "failed"
     else if String.eqb "cancelled" (Status ji) then "cancelled"
     else "ok")
    [ show_id (ID ji);
      rfc3339 (Started ji);
      time_or_dash (Finished ji);
      time_or_dash (Timeout ji);
      time_or_dash (Cancelled ji);
      show_duration (Elapsed ji);
      match Err ji with Some e => code e | None => text "-" end ].

(** The history table of one job: a [range] over an empty list renders
    its [else] branch. *)
Definition render_history (history : list JobInvocation) : list HistoryRow :=
  match template.reverse history with
  | [] => [NoHistoryRow]
  | shown => render_invocation <$> shown
  end.

(** The seven cells of a job's summary row. *)
Definition render_job_summary (job : JobStatus) : list Inline :=
  [ text (Name job);
    (if Disabled job then span (Some "danger") "Disabled"
     else span (Some "primary") "Enabled");
    match Current job with
    | Some c => since_utc (Started c)
    | None => span None "-"
    end;
    rfc3339 (NextRuntime job);
    match Last job with
    | Some l => rfc3339 (Started l)
    | None => span (Some "none") "-"
    end;
    match Last job with
    | Some l => match Err l with
                | Some e => show_error e
                | None => span (Some "none") "Success"
                end
    | None => span (Some "none") "-"
    end;
    match Last job with
    | Some l => show_duration (Elapsed l)
    | None => span (Some "none") "-"
    end ].

Definition render_job (job : JobStatus) : list Inline * list HistoryRow :=
  (render_job_summary job, render_history (History job)).

(** A history in finish order, oldest first; a list of invocations with
    the newest finished one first. *)
Definition finish_order (history : list JobInvocation) : Prop :=
  StronglySorted (fun a b => Finished a <= Finished b) history.

Definition newest_first (shown : list JobInvocation) : Prop :=
  StronglySorted (fun a b => Finished b <= Finished a) shown.

(** [{{ define "index" }}], between the header and the footer. *)
Definition render_index (vm : ManagerStatus) : IndexBody :=
  match Jobs vm with
  | [] => NoJobsLoaded
  | jobs => JobsTable (render_job <$> jobs)
  end.

End jobkit.

(** ** cron: the job manager, from the specification

    The synchronous part of the job manager: the registry of jobs with
    their trackers, the status queries and the control operations.  The
    scheduler loop and the execution of an action run beside the caller
    and are not part of what a call returns. *)

Module cron.

(** Modelled from the spec: the Invocation Tracker of a job, "per-job
    current/last/history state". *)
Record Tracker : Type := {
  current : option JobInvocation;
  last : option JobInvocation;
  history : list JobInvocation
}.

(** Modelled from the spec: the Job Descriptor, without the schedule rule
    and the action, which only the scheduler and the execution engine
    use. *)
Record Descriptor : Type := {
  name : string;
  timeout : Duration;          (* zero = no timeout *)
  enabled : bool;
  allow_overlap : bool;
  next_fire : Time
}.

Record Entry : Type := { descriptor : Descriptor; tracker : Tracker }.

(** Modelled from the spec: the Job Manager, "the Job Manager's
    exclusively-owned mapping from job name to (descriptor, tracker)",
    the liveness of its scheduling loop, the clock it reads and the next
    invocation ID it assigns. *)
Record JobManager : Type := {
  jobs : gmap string Entry;
  running : bool;
  now : Time;
  next_id : Z
}.

Definition with_jobs (m : JobManager) (js : gmap string Entry) : JobManager :=
  {| jobs := js; running := running m; now := now m; next_id := next_id m |}.

(** The tracker state of every job. *)
Definition trackers (m : JobManager) : gmap string Tracker :=
  tracker <$> jobs m.

(** Modelled from the spec: the record the Execution Engine allocates "in
    the running state" when a run starts. *)
Definition new_invocation (m : JobManager) (d : Descriptor) : JobInvocation :=
  {| ID := next_id m;
     Started := now m;
     Finished := 0;
     Timeout := if timeout d =? 0 then 0 else now m + timeout d;
     Cancelled := 0;
     Elapsed := 0;
     Status := "running";
     Err := None |}.

(** Modelled from the spec: [begin(record)] "sets the job's current
    record"; with overlap disallowed it "fails with a busy condition and
    no new record is created" when the job already has a current record. *)
Definition begin (overlap : bool) (record : JobInvocation) (t : Tracker)
  : option Tracker :=
  match current t with
  | Some _ =>
      if overlap
      then Some {| current := Some record; last := last t; history := history t |}
      else None
  | None => Some {| current := Some record; last := last t; history := history t |}
  end.

(** Modelled from the spec: the per-job part of a status snapshot,
    "descriptor state (name, enabled) plus its tracker snapshot". *)
Definition job_status (e : Entry) : JobStatus :=
  {| Name := name (descriptor e);
     Disabled := negb (enabled (descriptor e));
     Current := current (tracker e);
     NextRuntime := next_fire (descriptor e);
     Last := last (tracker e);
     History := history (tracker e) |}.

(** Modelled from the spec: [status()], a "read-only snapshot of every
    registered job". *)
Definition Status : M JobManager ManagerStatus := fun m =>
  ({| Jobs := job_status <$> (map_to_list (jobs m)).*2 |}, m).

(** Modelled from the spec: [job(name)], "same, for a single job; fails
    with not found if the name is unregistered". *)
Definition Job (jobName : string)
  : M JobManager (option JobStatus * option error) := fun m =>
  match jobs m !! jobName with
  | Some e => ((Some (job_status e), None), m)
  | None => ((None, Some (ErrJobNotFound jobName)), m)
  end.

(** Modelled from the spec: [isRunning()], the "overall liveness of the
    manager's scheduling loop". *)
Definition IsRunning : M JobManager bool := fun m => (running m, m).

(** Modelled from the spec: [runJob(name)] "fails with not found or busy
    as appropriate; returns as soon as the run is admitted".  Admission is
    the tracker's [begin]; a manual run does not look at the enabled
    flag. *)
Definition RunJob (jobName : string) : M JobManager (option error) := fun m =>
  match jobs m !! jobName with
  | None => (Some (ErrJobNotFound jobName), m)
  | Some e =>
      match begin (allow_overlap (descriptor e))
                  (new_invocation m (descriptor e)) (tracker e) with
      | None => (Some (ErrJobBusy jobName), m)
      | Some t =>
          (None,
           {| jobs := <[jobName := {| descriptor := descriptor e; tracker := t |}]> (jobs m);
              running := running m;
              now := now m;
              next_id := next_id m + 1 |})
      end
  end.

(** Modelled from the spec: [cancelJob(name)] "fails with not found if the
    job doesn't exist, and is a no-op (not an error) if the job has no
    current run"; on a current run it "sets the cancelled timestamp and
    requests termination". *)
Definition CancelJob (jobName : string) : M JobManager (option error) := fun m =>
  match jobs m !! jobName with
  | None => (Some (ErrJobNotFound jobName), m)
  | Some e =>
      match current (tracker e) with
      | None => (None, m)
      | Some r =>
          let t := {| current := Some (with_Cancelled r (now m));
                      last := last (tracker e);
                      history := history (tracker e) |} in
          (None, with_jobs m (<[jobName := {| descriptor := descriptor e; tracker := t |}]> (jobs m)))
      end
  end.

Definition set_enabled (flag : bool) (jobName : string)
  : M JobManager (option error) := fun m =>
  match jobs m !! jobName with
  | None => (Some (ErrJobNotFound jobName), m)
  | Some e =>
      let d := {| name := name (descriptor e); timeout := timeout (descriptor e);
                  enabled := flag; allow_overlap := allow_overlap (descriptor e);
                  next_fire := next_fire (descriptor e) |} in
      (None, with_jobs m (<[jobName := {| descriptor := d; tracker := tracker e |}]> (jobs m)))
  end.

(** Modelled from the spec: [enableJob(name)] and [disableJob(name)]
    "mutate the enabled flag; idempotent; fail with not found for unknown
    names". *)
Definition EnableJob : string -> M JobManager (option error) := set_enabled true.
Definition DisableJob : string -> M JobManager (option error) := set_enabled false.

#[global] Instance JobManager_Ops : jm.Ops JobManager :=
  jm.Build_Ops JobManager
    Status Job IsRunning RunJob CancelJob EnableJob DisableJob.

End cron.

(** ** r2: the [TLSClientConfig] request option (r2/opt_tls_client_config.go)

    The option works through pointers: [r.Client] points to an
    [http.Client], whose [Transport] is an interface value that may hold a
    [*http.Transport].  Clients and transports live in a heap, so that two
    requests sharing a client see the same update. *)

Module r2.

Definition loc : Type := positive.

(** What running an option yields: Go code that dereferences a nil
    pointer panics.  [Dangling] is the model's answer on a heap in which a
    pointer leads nowhere; no Go program reaches such a heap. *)
Inductive outcome (A : Type) : Type :=
  | Done (a : A)
  | NilDereference
  | Dangling.
Arguments Done {A} a.
Arguments NilDereference {A}.
Arguments Dangling {A}.

Section request.

(** The fields the option neither reads nor writes, and the round
    trippers other than [*http.Transport]. *)
Variables RequestFields ClientFields TransportFields OtherRoundTripper : Type.
(** The other fields of [http.Client{}] and of [http.Transport{}]. *)
Variable zero_ClientFields : ClientFields.
Variable zero_TransportFields : TransportFields.

(** [http.Transport]; its [TLSClientConfig] is a [*tls.Config]. *)
Record http_Transport : Type := {
  Transport_TLSClientConfig : option loc;
  Transport_fields : TransportFields
}.

(** A value of the interface [http.RoundTripper]: the nil interface, a
    [*http.Transport] (which may itself be a nil pointer: an interface
    holding it is not nil), or a value of another type. *)
Inductive RoundTripper : Type :=
  | RoundTripper_nil
  | RoundTripper_Transport (p : option loc)
  | RoundTripper_other (v : OtherRoundTripper).

(** [http.Client] *)
Record http_Client : Type := {
  Client_Transport : RoundTripper;
  Client_fields : ClientFields
}.

(** [r2.Request] *)
Record Request : Type := {
  Request_Client : option loc;
  Request_fields : RequestFields
}.

Record Heap : Type := {
  clients : gmap loc http_Client;
  transports : gmap loc http_Transport
}.

(** An [Option] is a function on a pointer to a [Request]; here it
    acts on the request the pointer leads to. *)
Definition Option : Type := Request -> Heap -> outcome (Request * Heap).

(** [&http.Client{}] *)
Definition new_Client (h : Heap) : loc * Heap :=
  let l := fresh (dom (clients h)) in
  (l, {| clients := <[l := {| Client_Transport := RoundTripper_nil;
                              Client_fields := zero_ClientFields |}]> (clients h);
         transports := transports h |}).

(** [&http.Transport{}] *)
Definition new_Transport (h : Heap) : loc * Heap :=
  let l := fresh (dom (transports h)) in
  (l, {| clients := clients h;
         transports := <[l := {| Transport_TLSClientConfig := None;
                                 Transport_fields := zero_TransportFields |}]>
                         (transports h) |}).

(** [if r.Client == nil { r.Client = &http.Client{} }] *)
Definition ensure_Client (r : Request) (h : Heap) : loc * Request * Heap :=
  match Request_Client r with
  | Some lc => (lc, r, h)
  | None =>
      let '(lc, h) := new_Client h in
      (lc, {| Request_Client := Some lc; Request_fields := Request_fields r |}, h)
  end.

(** [if r.Client.Transport == nil { r.Client.Transport = &http.Transport{} }] *)
Definition ensure_Transport (lc : loc) (c : http_Client) (h : Heap)
  : http_Client * Heap :=
  match Client_Transport c with
  | RoundTripper_nil =>
      let '(lt, h) := new_Transport h in
      let c := {| Client_Transport := RoundTripper_Transport (Some lt);
                  Client_fields := Client_fields c |} in
      (c, {| clients := <[lc := c]> (clients h); transports := transports h |})
  | _ => (c, h)
  end.

(** The type assertion of [r.Client.Transport] to a pointer to
    [http.Transport] and, when it holds, [typed.TLSClientConfig = cfg]. *)
Definition set_config (cfg : option loc) (c : http_Client) (h : Heap)
  : outcome Heap :=
  match Client_Transport c with
  | RoundTripper_Transport typed =>
      match typed with
      | None => NilDereference
      | Some lt =>
          match transports h !! lt with
          | None => Dangling
          | Some t =>
              Done {| clients := clients h;
                      transports :=
                        <[lt := {| Transport_TLSClientConfig := cfg;
                                   Transport_fields := Transport_fields t |}]>
                          (transports h) |}
          end
      end
  | _ => Done h
  end.

Definition TLSClientConfig (cfg : option loc) : Option := fun r h =>
  let '(lc, r, h) := ensure_Client r h in
  match clients h !! lc with
  | None => Dangling
  | Some c =>
      let '(c, h) := ensure_Transport lc c h in
      match set_config cfg c h with
      | Done h => Done (r, h)
      | NilDereference => NilDereference
      | Dangling => Dangling
      end
  end.

(** Every pointer of the request leads to an object. *)
Definition well_formed (r : Request) (h : Heap) : Prop :=
  forall lc, Request_Client r = Some lc ->
    exists c, clients h !! lc = Some c /\
      forall lt, Client_Transport c = RoundTripper_Transport (Some lt) ->
        is_Some (transports h !! lt).

(** The client's transport is an interface value that holds a nil
    [*http.Transport]. *)
Definition holds_nil_Transport (r : Request) (h : Heap) : Prop :=
  exists lc c, Request_Client r = Some lc /\ clients h !! lc = Some c /\
    Client_Transport c = RoundTripper_Transport None.

End request.

Arguments RoundTripper_nil {OtherRoundTripper}.
Arguments RoundTripper_Transport {OtherRoundTripper} p.
Arguments RoundTripper_other {OtherRoundTripper} v.
Arguments Transport_TLSClientConfig {TransportFields} h.
Arguments Transport_fields {TransportFields} h.
Arguments Client_Transport {ClientFields OtherRoundTripper} h.
Arguments Client_fields {ClientFields OtherRoundTripper} h.
Arguments Request_Client {RequestFields} r.
Arguments Request_fields {RequestFields} r.
Arguments clients {ClientFields TransportFields OtherRoundTripper} h.
Arguments transports {ClientFields TransportFields OtherRoundTripper} h.
Arguments TLSClientConfig {RequestFields ClientFields TransportFields
  OtherRoundTripper} zero_ClientFields zero_TransportFields cfg r h.
Arguments well_formed {RequestFields ClientFields TransportFields
  OtherRoundTripper} r h.
Arguments holds_nil_Transport {RequestFields ClientFields TransportFields
  OtherRoundTripper} r h.

End r2.

(** ** assert: the assertion logic (assert/assert.go)

    The functions below inspect their arguments through Go's [reflect]
    package and through [fmt].  Those belong to Go, not to the repository:
    they are the variables of the section. *)

Module reflect.

(** [reflect.Kind] *)
Inductive Kind : Type :=
  | Invalid | Bool | Int | Int8 | Int16 | Int32 | Int64
  | Uint | Uint8 | Uint16 | Uint32 | Uint64 | Uintptr
  | Float32 | Float64 | Complex64 | Complex128
  | Array | Chan | Func | Interface | Map | Ptr | Slice | String | Struct
  | UnsafePointer.

#[global] Instance Kind_eq_dec : EqDecision Kind.
Proof. solve_decision. Defined.

(** The number of a kind: the constants of [reflect.Kind] are numbered in
    the order of their declaration, [Invalid] being 0. *)
Definition Kind_number (k : Kind) : Z :=
  match k with
  | Invalid => 0 | Bool => 1 | Int => 2 | Int8 => 3 | Int16 => 4 | Int32 => 5
  | Int64 => 6 | Uint => 7 | Uint8 => 8 | Uint16 => 9 | Uint32 => 10
  | Uint64 => 11 | Uintptr => 12 | Float32 => 13 | Float64 => 14
  | Complex64 => 15 | Complex128 => 16 | Array => 17 | Chan => 18 | Func => 19
  | Interface => 20 | Map => 21 | Ptr => 22 | Slice => 23 | String => 24
  | Struct => 25 | UnsafePointer => 26
  end.

End reflect.

Module assert.

Definition RED := "31".
Definition WHITE := "37".
Definition GRAY := "90".
Definition EMPTY := "".

Definition ESC : string := String (Ascii.ascii_of_nat 27) "".
Definition NL : string := String (Ascii.ascii_of_nat 10) "".
Definition TAB : string := String (Ascii.ascii_of_nat 9) "".

Definition color (input colorCode : string) : string :=
  ESC ++ "[" ++ colorCode ++ ";01m" ++ input ++ ESC ++ "[0m".

Definition prefixOptional (message : string) : string :=
  "(Non-Fatal) " ++ message.

Section logic.

(** What a non-nil [interface{}] holds: a value with its dynamic type. *)
Variable Value : Type.

(** [interface{}]; [None] is the nil interface. *)
Definition Any : Type := option Value.

(** [reflect.Type], with the type, the kind and the length of a value. *)
Variable Type_ : Type.
Variable Type_of : Value -> Type_.
Variable Kind_of : Value -> reflect.Kind.
Variable Len : Value -> Z.
(** [Type.ConvertibleTo] and [Value.Convert]; a conversion may panic
    ([None]) even where [ConvertibleTo] holds. *)
Variable ConvertibleTo : Type_ -> Type_ -> bool.
Variable Convert : Value -> Type_ -> option Value.
Variable DeepEqual : Any -> Any -> bool.
(** The string a value is, when its dynamic type is [string]. *)
Variable as_string : Value -> option string.
(** An [int] passed as an [interface{}]. *)
Variable box_int : Z -> Value.
(** [fmt.Sprintf] with the verb for a Go-syntax representation. *)
Variable Sprintf_v : Any -> string.

(** [reflect.TypeOf]: nil for the nil interface. *)
Definition TypeOf (object : Any) : option Type_ := Type_of <$> object.

(** [reflect.ValueOf(object).Kind()] *)
Definition Kind (object : Any) : reflect.Kind :=
  match object with
  | None => reflect.Invalid
  | Some v => Kind_of v
  end.

Definition is_nil (object : Any) : bool :=
  match object with None => true | Some _ => false end.

(** [object == ""]: the dynamic type is [string] and the value is the
    empty string. *)
Definition eq_empty_string (object : Any) : bool :=
  match object with
  | Some v => match as_string v with
              | Some s => String.eqb s ""
              | None => false
              end
  | None => false
  end.

Definition shouldBeMultipleMessage (expected actual : Any) (message : string)
  : string :=
  let expectedLabel := color "Expected" WHITE in
  let actualLabel := color "Actual" WHITE in
  message ++ NL ++ TAB ++ expectedLabel ++ ": " ++ TAB ++ Sprintf_v expected
          ++ NL ++ TAB ++ actualLabel ++ ": " ++ TAB ++ Sprintf_v actual.

Definition shouldBeMessage (object : Any) (message : string) : string :=
  let actualLabel := color "Actual" WHITE in
  message ++ NL ++ TAB ++ actualLabel ++ ": " ++ TAB ++ Sprintf_v object.

Definition notEqualMessage (expected actual : Any) : string :=
  shouldBeMultipleMessage expected actual "Objects should not be equal".

Definition equalMessage (expected actual : Any) : string :=
  shouldBeMultipleMessage expected actual "Objects should be equal".

Definition getLength (object : Any) : Z :=
  if is_nil object then 0
  else if eq_empty_string object then 0
  else
    match Kind object with
    | reflect.Map
    | reflect.Slice | reflect.Chan | reflect.String =>
        match object with Some objValue => Len objValue | None => 0 end
    | _ => 0
    end.

(** The result is [None] when [Convert] panics. *)
Definition areEqual (expected actual : Any) : option bool :=
  if is_nil expected && is_nil actual then Some true
  else if (is_nil expected && negb (is_nil actual))
          || (negb (is_nil expected) && is_nil actual) then Some false
  else
    match TypeOf actual with
    | None => Some false
    | Some actualType =>
        match expected with
        | Some expectedValue =>
            if ConvertibleTo (Type_of expectedValue) actualType
            then match Convert expectedValue actualType with
                 | Some converted => Some (DeepEqual (Some converted) actual)
                 | None => None
                 end
            else Some (DeepEqual expected actual)
        | None => Some (DeepEqual expected actual)
        end
    end.

(** The kinds [getLength] asks the length of. *)
Definition has_length (k : reflect.Kind) : bool :=
  match k with
  | reflect.Map | reflect.Slice | reflect.Chan | reflect.String => true
  | _ => false
  end.

(** Each [should...] function returns [(didFail, message)]. *)

Definition shouldHaveLength (collection : Any) (length : Z) : bool * string :=
  let l := getLength collection in
  if negb (l =? length)
  then (true, shouldBeMultipleMessage (Some (box_int length)) (Some (box_int l))
                "Collection should have length")
  else (false, EMPTY).

Definition shouldNotBeEmpty (collection : Any) : bool * string :=
  let l := getLength collection in
  if l =? 0 then (true, "Should not be empty") else (false, EMPTY).

Definition shouldBeEmpty (collection : Any) : bool * string :=
  let l := getLength collection in
  if negb (l =? 0) then (true, shouldBeMessage collection "Should be empty")
  else (false, EMPTY).

Definition shouldBeEqual (expected actual : Any) : option (bool * string) :=
  match areEqual expected actual with
  | None => None
  | Some eq =>
      if negb eq then Some (true, equalMessage expected actual)
      else Some (false, EMPTY)
  end.

Definition shouldNotBeEqual (expected actual : Any) : option (bool * string) :=
  match areEqual expected actual with
  | None => None
  | Some eq =>
      if eq then Some (true, notEqualMessage expected actual)
      else Some (false, EMPTY)
  end.

(** What a check reports, when it returns. *)
Definition reports_failure (r : option (bool * string)) : Prop :=
  exists message, r = Some (true, message).

Definition reports_success (r : option (bool * string)) : Prop :=
  exists message, r = Some (false, message).

(** *** The assertion methods

    A test keeps the count of assertions made ([Increment]) and the
    failures reported through [fail]. *)

Record Failure : Type := {
  failure_message : string;
  failure_userMessageComponents : list Any
}.

Record Test : Type := {
  assertion_count : Z;
  failures : list Failure
}.

(** Whether the test goes on after an assertion of [Assertions]:
    [failNow] ends it, by [t.FailNow()] or by a panic. *)
Inductive Verdict : Type := Continues | FailedNow.

Definition Increment : M Test unit := fun t =>
  (tt, {| assertion_count := assertion_count t + 1; failures := failures t |}).

Definition fail (message : string) (userMessageComponents : list Any)
  : M Test unit := fun t =>
  (tt, {| assertion_count := assertion_count t;
          failures := (failures t ++
             [ {| failure_message := message;
                  failure_userMessageComponents := userMessageComponents |} ])%list |}).

Definition failNow (message : string) (userMessageComponents : list Any)
  : M Test Verdict :=
  do _ <- fail message userMessageComponents;
  ret FailedNow.

(** [(a *Assertions) Empty] *)
Definition Assertions_Empty (collection : Any) (userMessageComponents : list Any)
  : M Test Verdict :=
  do _ <- Increment;
  let '(didFail, message) := shouldBeEmpty collection in
  if (didFail : bool) then failNow message userMessageComponents
  else ret Continues.

(** [(a *Assertions) NotEmpty] *)
Definition Assertions_NotEmpty (collection : Any) (userMessageComponents : list Any)
  : M Test Verdict :=
  do _ <- Increment;
  let '(didFail, message) := shouldNotBeEmpty collection in
  if (didFail : bool) then failNow message userMessageComponents
  else ret Continues.

(** [(o *Optional) Empty] *)
Definition Optional_Empty (collection : Any) (userMessageComponents : list Any)
  : M Test bool :=
  do _ <- Increment;
  let '(didFail, message) := shouldBeEmpty collection in
  if (didFail : bool)
  then do _ <- fail (prefixOptional message) userMessageComponents; ret false
  else ret true.

(** [(o *Optional) NotEmpty] *)
Definition Optional_NotEmpty (collection : Any) (userMessageComponents : list Any)
  : M Test bool :=
  do _ <- Increment;
  let '(didFail, message) := shouldNotBeEmpty collection in
  if (didFail : bool)
  then do _ <- fail (prefixOptional message) userMessageComponents; ret false
  else ret true.

End logic.

Arguments TypeOf {Value Type_} Type_of object.
Arguments Kind {Value} Kind_of object.
Arguments is_nil {Value} object.
Arguments eq_empty_string {Value} as_string object.
Arguments getLength {Value} Kind_of Len as_string object.
Arguments areEqual {Value Type_} Type_of ConvertibleTo Convert DeepEqual
  expected actual.
Arguments shouldHaveLength {Value} Kind_of Len as_string box_int Sprintf_v
  collection length.
Arguments shouldNotBeEmpty {Value} Kind_of Len as_string collection.
Arguments shouldBeEmpty {Value} Kind_of Len as_string Sprintf_v collection.
Arguments shouldBeEqual {Value Type_} Type_of ConvertibleTo Convert DeepEqual
  Sprintf_v expected actual.
Arguments shouldNotBeEqual {Value Type_} Type_of ConvertibleTo Convert DeepEqual
  Sprintf_v expected actual.
Arguments shouldBeMessage {Value} Sprintf_v object message.
Arguments equalMessage {Value} Sprintf_v expected actual.
Arguments notEqualMessage {Value} Sprintf_v expected actual.
Arguments Increment {Value} t.
Arguments fail {Value} message userMessageComponents t.
Arguments failNow {Value} message userMessageComponents t.
Arguments Assertions_Empty {Value} Kind_of Len as_string Sprintf_v
  collection userMessageComponents t.
Arguments Assertions_NotEmpty {Value} Kind_of Len as_string
  collection userMessageComponents t.
Arguments Optional_Empty {Value} Kind_of Len as_string Sprintf_v
  collection userMessageComponents t.
Arguments Optional_NotEmpty {Value} Kind_of Len as_string
  collection userMessageComponents t.
Arguments failure_message {Value} f.
Arguments failure_userMessageComponents {Value} f.
Arguments assertion_count {Value} t.
Arguments failures {Value} t.

(** *** Nil, zero, reference and panic checks *)

Section nil_zero_reference.

Variable Value : Type.
Variable Type_ : Type.
Variable Type_of : Value -> Type_.
Variable Kind_of : Value -> reflect.Kind.
Variable ConvertibleTo : Type_ -> Type_ -> bool.
Variable Convert : Value -> Type_ -> option Value.
Variable DeepEqual : Any Value -> Any Value -> bool.
Variable box_int : Z -> Value.
Variable Sprintf_v : Any Value -> string.
(** [Value.IsNil]; it panics ([None]) on a value of a kind that has no
    nil. *)
Variable IsNil : Value -> option bool.
(** Go's [==] on two non-nil interface values; it panics ([None]) when
    both hold the same uncomparable type. *)
Variable interface_eq : Value -> Value -> option bool.

Definition isNil (object : Any Value) : option bool :=
  match object with
  | None => Some true
  | Some value =>
      let kind := Kind_of value in
      if (reflect.Kind_number reflect.Chan <=? reflect.Kind_number kind)
         && (reflect.Kind_number kind <=? reflect.Kind_number reflect.Slice)
      then IsNil value
      else Some false
  end.

Definition shouldNotBeNil (object : Any Value) : option (bool * string) :=
  match isNil object with
  | None => None
  | Some isnil =>
      if (isnil : bool) then Some (true, "Should not be nil") else Some (false, EMPTY)
  end.

Definition shouldBeNil (object : Any Value) : option (bool * string) :=
  match isNil object with
  | None => None
  | Some isnil =>
      if negb isnil then Some (true, shouldBeMessage Sprintf_v object "Should be nil")
      else Some (false, EMPTY)
  end.

Definition shouldBeTrue (value : bool) : bool * string :=
  if negb value then (true, "Should be true") else (false, EMPTY).

Definition shouldBeFalse (value : bool) : bool * string :=
  if value then (true, "Should be false") else (false, EMPTY).

Definition isZero (value : Any Value) : option bool :=
  areEqual Type_of ConvertibleTo Convert DeepEqual (Some (box_int 0)) value.

Definition shouldBeZero (value : Any Value) : option (bool * string) :=
  match isZero value with
  | None => None
  | Some zero =>
      if negb zero then Some (true, shouldBeMessage Sprintf_v value "Should be zero")
      else Some (false, EMPTY)
  end.

Definition shouldBeNonZero (value : Any Value) : option (bool * string) :=
  match isZero value with
  | None => None
  | Some zero => if zero then Some (true, "Should be non-zero") else Some (false, EMPTY)
  end.

Definition referenceEqualMessage (expected actual : Any Value) : string :=
  shouldBeMultipleMessage Value Sprintf_v expected actual "References should be equal".

Definition areReferenceEqual (expected actual : Any Value) : option bool :=
  if is_nil expected && is_nil actual then Some true
  else if (is_nil expected && negb (is_nil actual))
          || (negb (is_nil expected) && is_nil actual) then Some false
  else
    match expected, actual with
    | Some e, Some a => interface_eq e a
    | _, _ => Some false
    end.

Definition shouldBeReferenceEqual (expected actual : Any Value)
  : option (bool * string) :=
  match areReferenceEqual expected actual with
  | None => None
  | Some eq =>
      if negb eq then Some (true, referenceEqualMessage expected actual)
      else Some (false, EMPTY)
  end.

(** How a call of [action] ends: it returns, or it panics and [recover]
    yields the given value. *)
Inductive Outcome : Type :=
  | Returns
  | Panics (recovered : Any Value).

Definition panicEqualMessage (didPanic : bool) (expected actual : Any Value)
  : string :=
  if negb didPanic then "Should have produced a panic"
  else shouldBeMultipleMessage Value Sprintf_v expected actual
         "Panic from action should equal".

Definition shouldBePanicEqual (expected : Any Value) (action : Outcome)
  : option (bool * string) :=
  let actual := match action with Returns => None | Panics v => v end in
  let didPanic := negb (is_nil actual) in
  if negb didPanic
  then Some (true, panicEqualMessage didPanic expected actual)
  else
    match areEqual Type_of ConvertibleTo Convert DeepEqual expected actual with
    | None => None
    | Some eq =>
        if didPanic && negb eq
        then Some (true, panicEqualMessage didPanic expected actual)
        else Some (false, EMPTY)
    end.

End nil_zero_reference.

Arguments isNil {Value} Kind_of IsNil object.
Arguments shouldNotBeNil {Value} Kind_of IsNil object.
Arguments shouldBeNil {Value} Kind_of Sprintf_v IsNil object.
Arguments isZero {Value Type_} Type_of ConvertibleTo Convert DeepEqual box_int value.
Arguments shouldBeZero {Value Type_} Type_of ConvertibleTo Convert DeepEqual
  box_int Sprintf_v value.
Arguments shouldBeNonZero {Value Type_} Type_of ConvertibleTo Convert DeepEqual
  box_int value.
Arguments areReferenceEqual {Value} interface_eq expected actual.
Arguments shouldBeReferenceEqual {Value} Sprintf_v interface_eq expected actual.
Arguments Returns {Value}.
Arguments Panics {Value} recovered.
Arguments shouldBePanicEqual {Value Type_} Type_of ConvertibleTo Convert DeepEqual
  Sprintf_v expected action.

(** *** Times within a delta

    Instants and durations are counted in nanoseconds; a [time.Duration] is
    an [int64], and [Time.Sub] answers with the largest or the smallest
    duration when the difference does not fit. *)

Definition maxDuration : Duration := 2 ^ 63 - 1.
Definition minDuration : Duration := - 2 ^ 63.

Definition Time_After (t u : Time) : bool := u <? t.

Definition Time_Sub (t u : Time) : Duration :=
  if maxDuration <? t - u then maxDuration
  else if t - u <? minDuration then minDuration
  else t - u.

Section time_delta.

(** [Time.Format(time.RFC3339)], and [fmt]'s rendering of a duration. *)
Variable Format_RFC3339 : Time -> string.
Variable Sprintf_Duration : Duration -> string.

Definition shouldBeInTimeDelta (from to : Time) (delta : Duration) : bool * string :=
  let diff := if Time_After from to then Time_Sub from to else Time_Sub to from in
  if delta <? diff
  then (true, "Delta of " ++ Format_RFC3339 from ++ " and " ++ Format_RFC3339 to
                ++ " should be less than " ++ Sprintf_Duration delta)
  else (false, EMPTY).

End time_delta.

(** *** Predicates over the elements of a slice

    [shouldAnyOfInt], [shouldAnyOfFloat] and [shouldAnyOfString] are the
    same loop over a slice of [int], [float64] and [string]; so are the
    [All] and the [None] functions.  A predicate is taken to return,
    without effect on the test. *)

Section slices.

Variable A : Type.
(** [fmt.Sprintf] of an element, in Go syntax. *)
Variable Sprintf_v : A -> string.

Fixpoint shouldAnyOf (target : list A) (predicate : A -> bool) : bool * string :=
  match target with
  | [] => (true, "Predicate did not fire for any element in target")
  | obj :: rest =>
      if predicate obj then (false, EMPTY) else shouldAnyOf rest predicate
  end.

Fixpoint shouldAllOf (target : list A) (predicate : A -> bool) : bool * string :=
  match target with
  | [] => (false, EMPTY)
  | obj :: rest =>
      if negb (predicate obj)
      then (true, "Predicate failed for element in target: " ++ Sprintf_v obj)
      else shouldAllOf rest predicate
  end.

Fixpoint shouldNoneOf (target : list A) (predicate : A -> bool) : bool * string :=
  match target with
  | [] => (false, EMPTY)
  | obj :: rest =>
      if predicate obj
      then (true, "Predicate passed for element in target: " ++ Sprintf_v obj)
      else shouldNoneOf rest predicate
  end.

End slices.

Arguments shouldAnyOf {A} target predicate.
Arguments shouldAllOf {A} Sprintf_v target predicate.
Arguments shouldNoneOf {A} Sprintf_v target predicate.

Definition shouldAnyOfInt : list Z -> (Z -> bool) -> bool * string := shouldAnyOf.
Definition shouldAnyOfString : list string -> (string -> bool) -> bool * string :=
  shouldAnyOf.
Definition shouldAllOfInt := @shouldAllOf Z.
Definition shouldAllOfString := @shouldAllOf string.
Definition shouldNoneOfInt := @shouldNoneOf Z.
Definition shouldNoneOfString := @shouldNoneOf string.

(** The same over a slice of [float64], the floats being any type. *)
Definition shouldAnyOfFloat (float64 : Type) := @shouldAnyOf float64.
Definition shouldAllOfFloat (float64 : Type) := @shouldAllOf float64.
Definition shouldNoneOfFloat (float64 : Type) := @shouldNoneOf float64.

(** *** Names of test functions *)

Section test_names.

(** [utf8.DecodeRuneInString] (the rune alone) and [unicode.IsLower]. *)
Variable DecodeRuneInString : string -> Z.
Variable IsLower : Z -> bool.

Definition isTest (name prefix : string) : bool :=
  if negb (String.prefix prefix name) then false
  else if (String.length name =? String.length prefix)%nat then true
  else
    let rune :=
      DecodeRuneInString
        (String.substring (String.length prefix)
           (String.length name - String.length prefix) name) in
    negb (IsLower rune).

End test_names.

(** *** More assertion methods *)

Section methods.

Variable Value : Type.
Variable Kind_of : Value -> reflect.Kind.
Variable Len : Value -> Z.
Variable as_string : Value -> option string.
Variable box_int : Z -> Value.
Variable Sprintf_v : Any Value -> string.

(** [(a *Assertions) Len] *)
Definition Assertions_Len (collection : Any Value) (length : Z)
    (userMessageComponents : list (Any Value)) : M (Test Value) Verdict :=
  do _ <- Increment;
  let '(didFail, message) :=
    shouldHaveLength Kind_of Len as_string box_int Sprintf_v collection length in
  if (didFail : bool) then failNow message userMessageComponents
  else ret Continues.

(** [(o *Optional) Len] *)
Definition Optional_Len (collection : Any Value) (length : Z)
    (userMessageComponents : list (Any Value)) : M (Test Value) bool :=
  do _ <- Increment;
  let '(didFail, message) :=
    shouldHaveLength Kind_of Len as_string box_int Sprintf_v collection length in
  if (didFail : bool)
  then do _ <- fail (prefixOptional message) userMessageComponents; ret false
  else ret true.

(** [(a *Assertions) True] *)
Definition Assertions_True (object : bool)
    (userMessageComponents : list (Any Value)) : M (Test Value) Verdict :=
  do _ <- Increment;
  let '(didFail, message) := shouldBeTrue object in
  if (didFail : bool) then failNow message userMessageComponents
  else ret Continues.

(** [(o *Optional) True] *)
Definition Optional_True (object : bool)
    (userMessageComponents : list (Any Value)) : M (Test Value) bool :=
  do _ <- Increment;
  let '(didFail, message) := shouldBeTrue object in
  if (didFail : bool)
  then do _ <- fail (prefixOptional message) userMessageComponents; ret false
  else ret true.

(** [(a *Assertions) False] *)
Definition Assertions_False (object : bool)
    (userMessageComponents : list (Any Value)) : M (Test Value) Verdict :=
  do _ <- Increment;
  let '(didFail, message) := shouldBeFalse object in
  if (didFail : bool) then failNow message userMessageComponents
  else ret Continues.

(** [(o *Optional) False] *)
Definition Optional_False (object : bool)
    (userMessageComponents : list (Any Value)) : M (Test Value) bool :=
  do _ <- Increment;
  let '(didFail, message) := shouldBeFalse object in
  if (didFail : bool)
  then do _ <- fail (prefixOptional message) userMessageComponents; ret false
  else ret true.

(** [(a *Assertions) FailNow] and [(o *Optional) Fail] *)
Definition Assertions_FailNow (userMessageComponents : list (Any Value))
  : M (Test Value) Verdict :=
  failNow "Fatal Assertion Failed" userMessageComponents.

Definition Optional_Fail (userMessageComponents : list (Any Value))
  : M (Test Value) unit :=
  fail (prefixOptional "Assertion Failed") userMessageComponents.

(** An assertion of [Optional] and the assertion of [Assertions] of the
    same name, run on the same test, go the same way: both count one
    assertion; either both pass and report nothing, or both fail and each
    reports one failure, with the same user message, the message of the
    optional one being the other's behind the non-fatal prefix. *)
Definition same_assertion (optional : M (Test Value) bool)
    (fatal : M (Test Value) Verdict) (userMessageComponents : list (Any Value))
    (t : Test Value) : Prop :=
  let counted := {| assertion_count := assertion_count t + 1;
                    failures := failures t |} in
  let reported message :=
    {| assertion_count := assertion_count t + 1;
       failures := (failures t ++
         [ {| failure_message := message;
              failure_userMessageComponents := userMessageComponents |} ])%list |} in
  (optional t = (true, counted) /\ fatal t = (Continues, counted)) \/
  (exists message,
     optional t = (false, reported (prefixOptional message)) /\
     fatal t = (FailedNow, reported message)).

End methods.

Arguments Assertions_Len {Value} Kind_of Len as_string box_int Sprintf_v
  collection length userMessageComponents t.
Arguments Optional_Len {Value} Kind_of Len as_string box_int Sprintf_v
  collection length userMessageComponents t.
Arguments Assertions_True {Value} object userMessageComponents t.
Arguments Optional_True {Value} object userMessageComponents t.
Arguments Assertions_False {Value} object userMessageComponents t.
Arguments Optional_False {Value} object userMessageComponents t.
Arguments Assertions_FailNow {Value} userMessageComponents t.
Arguments Optional_Fail {Value} userMessageComponents t.
Arguments same_assertion {Value} optional fatal userMessageComponents t.

End assert.

(** ** Concrete managers and requests, to run the definitions on *)

Module demo.

(** A request context that carries its route parameters as a map; a
    missing parameter is an error. *)
Definition Ctx : Type := gmap string string.

Definition RouteParam (r : Ctx) (key : string) : string * option error :=
  match r !! key with
  | Some v => (v, None)
  | None => ("", Some (ErrParameterMissing key))
  end.

Definition request (jobName : string) : Ctx := {[ "jobName" := jobName ]}.

Definition idle : cron.Tracker :=
  {| cron.current := None; cron.last := None; cron.history := [] |}.

Definition job (n : string) (overlap : bool) (t : cron.Tracker) : cron.Entry :=
  {| cron.descriptor :=
       {| cron.name := n; cron.timeout := 500; cron.enabled := true;
          cron.allow_overlap := overlap; cron.next_fire := 2000 |};
     cron.tracker := t |}.

Definition run7 : JobInvocation :=
  {| ID := 7; Started := 900; Finished := 0; Timeout := 1400; Cancelled := 0;
     Elapsed := 0; Status := "running"; Err := None |}.

Definition busy : cron.Tracker :=
  {| cron.current := Some run7; cron.last := None; cron.history := [] |}.

(** Job [A] is registered and idle; job [B] is registered, forbids
    overlap and has a run in progress. *)
Definition manager : cron.JobManager :=
  {| cron.jobs := {[ "A" := job "A" false idle; "B" := job "B" false busy ]};
     cron.running := true;
     cron.now := 1000;
     cron.next_id := 8 |}.

(** A few Go values for the assertions: an [int], a [string], a slice of
    strings (nil or not), a struct of two [int]s, an array of three
    [int]s. *)
Inductive go_value : Type :=
  | go_int (z : Z)
  | go_string (s : string)
  | go_strings (l : option (list string))
  | go_point (x y : Z)
  | go_array3 (a b c : Z).

Definition go_kind (v : go_value) : reflect.Kind :=
  match v with
  | go_int _ => reflect.Int
  | go_string _ => reflect.String
  | go_strings _ => reflect.Slice
  | go_point _ _ => reflect.Struct
  | go_array3 _ _ _ => reflect.Array
  end.

Definition go_len (v : go_value) : Z :=
  match v with
  | go_string s => Z.of_nat (String.length s)
  | go_strings (Some l) => Z.of_nat (length l)
  | go_array3 _ _ _ => 3
  | _ => 0
  end.

Definition go_as_string (v : go_value) : option string :=
  match v with go_string s => Some s | _ => None end.

Definition quoted (s : string) : string :=
  let q := String (Ascii.ascii_of_nat 34) "" in q ++ s ++ q.

(** The Go-syntax representation of a value. *)
Definition go_Sprintf_v (o : option go_value) : string :=
  match o with
  | None => "<nil>"
  | Some (go_int z) => pretty z
  | Some (go_string s) => quoted s
  | Some (go_strings None) => "[]string(nil)"
  | Some (go_strings (Some l)) =>
      "[]string{" ++ String.concat ", " (quoted <$> l) ++ "}"
  | Some (go_point x y) =>
      "demo.Point{X:" ++ pretty x ++ ", Y:" ++ pretty y ++ "}"
  | Some (go_array3 a b c) =>
      "[3]int{" ++ pretty a ++ ", " ++ pretty b ++ ", " ++ pretty c ++ "}"
  end.

Definition new_test : assert.Test go_value :=
  {| assert.assertion_count := 0; assert.failures := [] |}.

(** Two integer types for the equality checks: [int] and [int64], both
    64 bits wide, convertible into each other without loss. *)
Inductive num_type : Type := type_int | type_int64.
Inductive num : Type := num_int (z : Z) | num_int64 (z : Z).

Definition num_Type_of (v : num) : num_type :=
  match v with num_int _ => type_int | num_int64 _ => type_int64 end.

Definition num_ConvertibleTo (from to : num_type) : bool := true.

Definition num_Convert (v : num) (to : num_type) : option num :=
  let z := match v with num_int z | num_int64 z => z end in
  Some (match to with type_int => num_int z | type_int64 => num_int64 z end).

Definition num_DeepEqual (x y : option num) : bool :=
  match x, y with
  | None, None => true
  | Some (num_int a), Some (num_int b)
  | Some (num_int64 a), Some (num_int64 b) => a =? b
  | _, _ => false
  end.

(** Requests for the TLS option.  The fields the option does not touch
    are a string each; other round trippers are numbered. *)
Definition Request : Type := r2.Request string.
Definition Heap : Type := r2.Heap string string nat.

(** A request without a client, on an empty heap. *)
Definition bare_request : Request :=
  {| r2.Request_Client := None; r2.Request_fields := "GET /" |}.
Definition empty_heap : Heap := {| r2.clients := ∅; r2.transports := ∅ |}.

(** A request whose client holds a nil [*http.Transport] in its
    [Transport]. *)
Definition nil_transport_request : Request :=
  {| r2.Request_Client := Some 1%positive; r2.Request_fields := "GET /" |}.
Definition nil_transport_heap : Heap :=
  {| r2.clients :=
       {[ 1%positive := {| r2.Client_Transport := r2.RoundTripper_Transport None;
                           r2.Client_fields := "client" |} ]};
     r2.transports := ∅ |}.

(** A request whose client has an [http.Transport] already. *)
Definition configured_request : Request :=
  {| r2.Request_Client := Some 1%positive; r2.Request_fields := "GET /" |}.
Definition configured_heap : Heap :=
  {| r2.clients :=
       {[ 1%positive :=
            {| r2.Client_Transport := r2.RoundTripper_Transport (Some 2%positive);
               r2.Client_fields := "client" |} ]};
     r2.transports :=
       {[ 2%positive := {| r2.Transport_TLSClientConfig := None;
                           r2.Transport_fields := "transport" |} ]} |}.

(** Three finished runs, in finish order. *)
Definition finished (id : Z) (started finished : Time) (status : string)
    (err : option error) : JobInvocation :=
  {| ID := id; Started := started; Finished := finished; Timeout := 0;
     Cancelled := 0; Elapsed := finished - started; Status := status;
     Err := err |}.

Definition three_runs : list JobInvocation :=
  [ finished 1 100 150 "success" None;
    finished 2 200 290 "failed" (Some (Errorf "boom"));
    finished 3 300 310 "cancelled" None ].

Definition job_with_history : JobStatus :=
  {| Name := "A"; Disabled := false; Current := None; NextRuntime := 400;
     Last := Some (finished 3 300 310 "cancelled" None);
     History := three_runs |}.

(** Which of the Go values above are nil; [IsNil] panics on the kinds
    without a nil. *)
Definition go_IsNil (v : go_value) : option bool :=
  match v with
  | go_strings None => Some true
  | go_strings (Some _) => Some false
  | _ => None
  end.

(** The first byte of a string as its rune, and the lower-case letters of
    ASCII. *)
Definition ascii_rune (s : string) : Z :=
  match s with
  | EmptyString => 65533
  | String a _ => Z.of_nat (Ascii.nat_of_ascii a)
  end.

Definition ascii_IsLower (r : Z) : bool := (97 <=? r) && (r <=? 122).

(** A request whose client has a round tripper of another type. *)
Definition custom_heap : Heap :=
  {| r2.clients :=
       {[ 1%positive := {| r2.Client_Transport := r2.RoundTripper_other 7%nat;
                           r2.Client_fields := "client" |} ]};
     r2.transports := ∅ |}.

End demo.

(** * Properties *)

(** ** The state monad *)

Lemma bind_run {S A B} (c : M S A) (k : A -> M S B) (s : S) :
  bind c k s = k (c s).1 (c s).2.
Proof. unfold bind. by destruct (c s). Qed.

(** ** The management server *)

Section management_server_facts.

Context {JM : Type} `{!jm.Ops JM}.
Context {Ctx : Type} (RouteParam : Ctx -> string -> string * option error).

(** Every route of the server is registered with the handler of its
    name. *)
Lemma routes_registered :
  jobkit.route RouteParam web.GET "/healthz" = Some jobkit.handle_healthz /\
  jobkit.route RouteParam web.GET "/api/jobs" = Some jobkit.handle_api_jobs /\
  jobkit.route RouteParam web.GET "/api/job.status/:jobName"
    = Some (jobkit.handle_job_status RouteParam) /\
  forall c, jobkit.route RouteParam web.POST (jobkit.control_pattern c)
    = Some (jobkit.control_handler RouteParam c).
Proof. repeat split; try reflexivity. by intros []. Qed.

(** A handler of a control endpoint calls its operation once and turns
    the result into the response. *)
Lemma control_handler_run (c : jobkit.Control) (r : Ctx) (jobName : string) (m : JM) :
  RouteParam r "jobName" = (jobName, None) ->
  jobkit.control_handler RouteParam c r m =
    (match (jobkit.control_operation c jobName m).1 with
     | Some err => web.JSON_BadRequest err
     | None =>
         match c with
         | jobkit.job_run | jobkit.job_cancel => web.JSON_OK
         | jobkit.job_enable =>
             web.JSON_Result (web.PayloadString (jobName ++ " enabled"))
         | jobkit.job_disable =>
             web.JSON_Result (web.PayloadString (jobName ++ " disabled"))
         end
     end,
     (jobkit.control_operation c jobName m).2).
Proof.
  intros Hparam.
  destruct c; simpl;
    unfold jobkit.handle_job_run, jobkit.handle_job_cancel,
      jobkit.handle_job_enable, jobkit.handle_job_disable;
    rewrite Hparam, bind_run;
    match goal with |- context [(?op jobName m).1] =>
      destruct (op jobName m) as [[err|] m'] end; reflexivity.
Qed.

(** C3: for each control endpoint (job.run, job.cancel, job.enable,
    job.disable) and every job name, the endpoint returns a success
    result exactly when the corresponding operation of the job manager
    (RunJob, CancelJob, EnableJob, DisableJob) returns no error, and
    otherwise returns a failure response that carries the error of the
    operation; the handler leaves the manager as the operation left it. *)
Theorem control_endpoint_reports_operation
    (c : jobkit.Control) (r : Ctx) (jobName : string) (m : JM) :
  RouteParam r "jobName" = (jobName, None) ->
  let result := jobkit.control_handler RouteParam c r m in
  let outcome := jobkit.control_operation c jobName m in
  jobkit.route RouteParam web.POST (jobkit.control_pattern c)
    = Some (jobkit.control_handler RouteParam c) /\
  (web.is_success result.1 = true <-> outcome.1 = None) /\
  (forall err, outcome.1 = Some err -> result.1 = web.JSON_BadRequest err) /\
  web.failure_of result.1 = outcome.1 /\
  result.2 = outcome.2.
Proof.
  intros Hparam result outcome. subst result outcome.
  rewrite (control_handler_run c r jobName m Hparam).
  split; [by destruct c|].
  destruct (jobkit.control_operation c jobName m) as [[err|] m']; simpl.
  - repeat split; try done. by intros ? [= ->].
  - repeat split; try done; by destruct c.
Qed.

(** C4: for every state of the job manager, GET /healthz returns an OK
    result exactly when IsRunning is true, and the internal-error failure
    when IsRunning is false. *)
Theorem healthz_reports_liveness (r : Ctx) (m : JM) :
  jobkit.route RouteParam web.GET "/healthz" = Some jobkit.handle_healthz /\
  ((jobkit.handle_healthz r m).1 = web.JSON_OK <-> (jm.IsRunning m).1 = true) /\
  ((jm.IsRunning m).1 = false ->
     (jobkit.handle_healthz r m).1 =
       web.JSON_InternalError
         (Errorf "job manager is stopped or in an inconsistent state")) /\
  (jobkit.handle_healthz r m).2 = (jm.IsRunning m).2.
Proof.
  split; [reflexivity|].
  unfold jobkit.handle_healthz. rewrite bind_run.
  destruct (jm.IsRunning m) as [[] m']; simpl; repeat split; done.
Qed.

End management_server_facts.

(** ** The management server on the job manager of the specification *)

Section management_server_on_cron.

Context {Ctx : Type} (RouteParam : Ctx -> string -> string * option error).

(** The query operations leave the manager as it is. *)
Lemma queries_read_only (m : cron.JobManager) (jobName : string) :
  (cron.Status m).2 = m /\ (cron.Job jobName m).2 = m /\ (cron.IsRunning m).2 = m.
Proof.
  repeat split; try reflexivity.
  unfold cron.Job. by destruct (cron.jobs m !! jobName).
Qed.

(** [GET /api/jobs] only queries. *)
Lemma handle_api_jobs_read_only (r : Ctx) (m : cron.JobManager) :
  (jobkit.handle_api_jobs r m).2 = m.
Proof. reflexivity. Qed.

(** [GET /api/job.status/:jobName] on a registered job without a current
    run answers with the status from before the call, and admits a run. *)
Lemma handle_job_status_admits_run
    (r : Ctx) (jobName : string) (m : cron.JobManager) (e : cron.Entry) :
  RouteParam r "jobName" = (jobName, None) ->
  cron.jobs m !! jobName = Some e ->
  cron.current (cron.tracker e) = None ->
  let result := jobkit.handle_job_status RouteParam r m in
  result.1 = web.JSON_Result (web.PayloadJob (Some (cron.job_status e))) /\
  cron.current <$> (cron.trackers result.2 !! jobName)
    = Some (Some (cron.new_invocation m (cron.descriptor e))).
Proof.
  intros Hparam Hjob Hidle. unfold jobkit.handle_job_status.
  rewrite Hparam. cbn. unfold bind, cron.Job. rewrite Hjob. cbn.
  unfold cron.RunJob, cron.begin. rewrite Hjob, Hidle. cbn.
  split; [reflexivity|].
  unfold cron.trackers. cbn. by rewrite lookup_fmap, lookup_insert_eq.
Qed.

(** [GET /api/job.status/:jobName] on a registered job that forbids
    overlap and has a current run answers with the "busy" failure. *)
Lemma handle_job_status_busy
    (r : Ctx) (jobName : string) (m : cron.JobManager) (e : cron.Entry) :
  RouteParam r "jobName" = (jobName, None) ->
  cron.jobs m !! jobName = Some e ->
  is_Some (cron.current (cron.tracker e)) ->
  cron.allow_overlap (cron.descriptor e) = false ->
  jobkit.handle_job_status RouteParam r m
    = (web.JSON_BadRequest (ErrJobBusy jobName), m).
Proof.
  intros Hparam Hjob [run Hrun] Hoverlap. unfold jobkit.handle_job_status.
  rewrite Hparam. cbn. unfold bind, cron.Job. rewrite Hjob. cbn.
  unfold cron.RunJob, cron.begin. by rewrite Hjob, Hrun, Hoverlap.
Qed.

(** C7: for every registered job that has no current run, cancelJob is a
    no-op returning success: the job.cancel endpoint returns OK and the
    manager, with every tracker, is unchanged.  cancelJob fails only with
    "not found", and does so exactly when the name is unregistered. *)
Theorem cancel_without_current_run (r : Ctx) (jobName : string) (m : cron.JobManager) :
  RouteParam r "jobName" = (jobName, None) ->
  (forall e, cron.jobs m !! jobName = Some e ->
             cron.current (cron.tracker e) = None ->
     cron.CancelJob jobName m = (None, m) /\
     jobkit.handle_job_cancel RouteParam r m = (web.JSON_OK, m)) /\
  (forall err, (cron.CancelJob jobName m).1 = Some err ->
     err = ErrJobNotFound jobName /\ cron.jobs m !! jobName = None) /\
  (cron.jobs m !! jobName = None ->
     (cron.CancelJob jobName m).1 = Some (ErrJobNotFound jobName)).
Proof.
  intros Hparam. split; [|split].
  - intros e Hjob Hidle.
    assert (cron.CancelJob jobName m = (None, m)) as Hcancel.
    { unfold cron.CancelJob. rewrite Hjob. by rewrite Hidle. }
    split; [exact Hcancel|].
    unfold jobkit.handle_job_cancel. rewrite Hparam. cbn.
    unfold bind. change jm.CancelJob with cron.CancelJob. by rewrite Hcancel.
  - intros err. unfold cron.CancelJob.
    destruct (cron.jobs m !! jobName) as [e|]; [|by intros [= <-]].
    by destruct (cron.current (cron.tracker e)).
  - intros Hnone. unfold cron.CancelJob. by rewrite Hnone.
Qed.

End management_server_on_cron.

(** The claim holds at a registered job without a current run. *)
Lemma cancel_without_current_run_witness :
  jobkit.handle_job_cancel demo.RouteParam (demo.request "A") demo.manager
    = (web.JSON_OK, demo.manager).
Proof.
  destruct (cancel_without_current_run demo.RouteParam (demo.request "A") "A"
              demo.manager eq_refl) as [Hidle _].
  exact (proj2 (Hidle (demo.job "A" false demo.idle) eq_refl eq_refl)).
Defined.

(** The control endpoints at a busy job and at an unknown job. *)
Lemma control_endpoint_reports_operation_witness :
  (jobkit.handle_job_run demo.RouteParam (demo.request "B") demo.manager).1
    = web.JSON_BadRequest (ErrJobBusy "B") /\
  (jobkit.handle_job_disable demo.RouteParam (demo.request "Z") demo.manager).1
    = web.JSON_BadRequest (ErrJobNotFound "Z").
Proof.
  split.
  - exact (proj1 (proj2 (proj2
      (control_endpoint_reports_operation demo.RouteParam jobkit.job_run
         (demo.request "B") "B" demo.manager eq_refl))) _ eq_refl).
  - exact (proj1 (proj2 (proj2
      (control_endpoint_reports_operation demo.RouteParam jobkit.job_disable
         (demo.request "Z") "Z" demo.manager eq_refl))) _ eq_refl).
Defined.

(** A stopped manager fails the health check. *)
Example healthz_stopped :
  (jobkit.handle_healthz (demo.request "A")
     {| cron.jobs := ∅; cron.running := false; cron.now := 0; cron.next_id := 0 |}).1
  = web.JSON_InternalError
      (Errorf "job manager is stopped or in an inconsistent state").
Proof. reflexivity. Qed.

(** C1: handling a GET status request for a single job invokes only query
    operations of the job manager and leaves every tracker unchanged.  The
    handler does not: at the registered, idle job A it calls RunJob after
    Job, and A's tracker gains a current run.  The listing endpoint
    GET /api/jobs, on the same manager, changes nothing. *)
Theorem status_endpoint_runs_the_job :
  let handled :=
    jobkit.handle_job_status demo.RouteParam (demo.request "A") demo.manager in
  let traced :=
    jobkit.handle_job_status demo.RouteParam (demo.request "A") (demo.manager, []) in
  traced.2.2 = [jm.CallJob "A"; jm.CallRunJob "A"] /\
  forallb jm.is_query traced.2.2 = false /\
  cron.trackers demo.manager !! "A" = Some demo.idle /\
  cron.trackers handled.2 !! "A"
    = Some {| cron.current :=
                Some {| ID := 8; Started := 1000; Finished := 0; Timeout := 1500;
                        Cancelled := 0; Elapsed := 0; Status := "running";
                        Err := None |};
              cron.last := None; cron.history := [] |} /\
  cron.trackers handled.2 <> cron.trackers demo.manager /\
  (jobkit.handle_api_jobs (demo.request "A") demo.manager).2 = demo.manager.
Proof.
  cbv zeta. split; [by vm_compute|]. split; [by vm_compute|].
  split; [by vm_compute|]. split; [by vm_compute|]. split; [|by vm_compute].
  intros Heq. apply (f_equal (fun t => cron.current <$> (t !! "A"))) in Heq.
  vm_compute in Heq. discriminate Heq.
Qed.

(** C2: the single-job status query succeeds whenever the name is
    registered, whatever the state of the job.  The endpoint does not: job
    B is registered and the manager's own query returns its status, but B
    forbids overlap and has a run in progress, and the endpoint answers
    with the "busy" failure of the RunJob it calls. *)
Theorem status_endpoint_fails_on_busy_job :
  cron.Job "B" demo.manager
    = ((Some (cron.job_status (demo.job "B" false demo.busy)), None), demo.manager) /\
  jobkit.handle_job_status demo.RouteParam (demo.request "B") demo.manager
    = (web.JSON_BadRequest (ErrJobBusy "B"), demo.manager).
Proof. split; by vm_compute. Qed.

(** ** The configuration *)


(** ** The dashboard *)

Section history.

Lemma StronglySorted_rev {A} (R : A -> A -> Prop) (l : list A) :
  StronglySorted R l -> StronglySorted (fun a b => R b a) (rev l).
Proof.
  induction 1 as [|x l Hsorted IH Hall]; simpl; [constructor|].
  apply StronglySorted_app_2; [|exact IH|repeat constructor].
  intros a b Ha Hb. apply list_elem_of_singleton in Hb as ->.
  rewrite Forall_forall in Hall. apply Hall.
  by apply list_elem_of_In, in_rev, list_elem_of_In.
Qed.

Lemma rev_lookup {A} (l : list A) (i : nat) (x : A) :
  l !! i = Some x -> rev l !! (length l - 1 - i)%nat = Some x.
Proof.
  intros Hi. pose proof (lookup_lt_Some _ _ _ Hi) as Hlt.
  rewrite rev_alt. change (rev_append l []) with (reverse l).
  rewrite reverse_lookup by lia. rewrite <- Hi. f_equal. lia.
Qed.

Lemma render_history_rows (history : list JobInvocation) :
  jobkit.render_history history =
    match history with
    | [] => [jobkit.NoHistoryRow]
    | _ => jobkit.render_invocation <$> rev history
    end.
Proof.
  unfold jobkit.render_history, template.reverse.
  destruct history as [|ji history]; [reflexivity|].
  destruct (rev (ji :: history)) as [|first shown] eqn:Hrev; [|reflexivity].
  apply (f_equal (@length _)) in Hrev. rewrite length_rev in Hrev. discriminate.
Qed.

(** C6: for every job whose history is in finish order, oldest first, the
    dashboard renders the history entries as the reversal of that list:
    the rows are the entries of the reversed history, one row per entry,
    the newest finished invocation first; the entry at position i of the
    history is rendered at position length - 1 - i. *)
Theorem history_rendered_newest_first (job : JobStatus) :
  jobkit.finish_order (History job) ->
  (jobkit.render_job job).2 =
    match History job with
    | [] => [jobkit.NoHistoryRow]
    | _ => jobkit.render_invocation <$> rev (History job)
    end /\
  jobkit.newest_first (rev (History job)) /\
  forall (i : nat) (ji : JobInvocation),
    History job !! i = Some ji ->
    (jobkit.render_job job).2 !! (length (History job) - 1 - i)%nat
      = Some (jobkit.render_invocation ji).
Proof.
  intros Hsorted. simpl. rewrite render_history_rows.
  split; [reflexivity|]. split; [by apply StronglySorted_rev|].
  intros i ji Hi. destruct (History job) as [|first rest] eqn:Hhistory;
    [by rewrite lookup_nil in Hi|].
  rewrite list_lookup_fmap, (rev_lookup _ i ji Hi). reflexivity.
Qed.

End history.

(** The dashboard on three finished runs: the last one finished comes
    first. *)
Lemma history_rendered_newest_first_witness :
  jobkit.finish_order demo.three_runs /\
  (jobkit.render_job demo.job_with_history).2 =
    [ jobkit.render_invocation (demo.finished 3 300 310 "cancelled" None);
      jobkit.render_invocation (demo.finished 2 200 290 "failed" (Some (Errorf "boom")));
      jobkit.render_invocation (demo.finished 1 100 150 "success" None) ].
Proof.
  assert (jobkit.finish_order (History demo.job_with_history)) as Hsorted.
  { repeat constructor; simpl; lia. }
  split; [exact Hsorted|].
  exact (proj1 (history_rendered_newest_first demo.job_with_history Hsorted)).
Defined.

(** ** The TLS option *)

Section TLSClientConfig_facts.

Context {RequestFields ClientFields TransportFields OtherRoundTripper : Type}.
Context (zc : ClientFields) (zt : TransportFields).

Abbreviation Heap := (r2.Heap ClientFields TransportFields OtherRoundTripper).
Abbreviation Request := (r2.Request RequestFields).
Abbreviation TLSClientConfig := (r2.TLSClientConfig zc zt).

Lemma fresh_unallocated {V} (m : gmap r2.loc V) : m !! fresh (dom m) = None.
Proof. apply not_elem_of_dom, is_fresh. Qed.

Lemma TLSClientConfig_no_client cfg (r : Request) (h : Heap) :
  r2.Request_Client r = None ->
  let lc := fresh (dom (r2.clients h)) in
  let lt := fresh (dom (r2.transports h)) in
  TLSClientConfig cfg r h = r2.Done
    ({| r2.Request_Client := Some lc; r2.Request_fields := r2.Request_fields r |},
     {| r2.clients :=
          <[lc := {| r2.Client_Transport := r2.RoundTripper_Transport (Some lt);
                     r2.Client_fields := zc |}]> (r2.clients h);
        r2.transports :=
          <[lt := {| r2.Transport_TLSClientConfig := cfg;
                     r2.Transport_fields := zt |}]> (r2.transports h) |}).
Proof.
  intros Hnil lc lt. unfold r2.TLSClientConfig, r2.ensure_Client. rewrite Hnil.
  cbn. rewrite lookup_insert_eq. cbn. rewrite lookup_insert_eq.
  by rewrite !insert_insert_eq.
Qed.

Lemma TLSClientConfig_no_transport cfg (r : Request) (h : Heap) lc c :
  r2.Request_Client r = Some lc ->
  r2.clients h !! lc = Some c ->
  r2.Client_Transport c = r2.RoundTripper_nil ->
  let lt := fresh (dom (r2.transports h)) in
  TLSClientConfig cfg r h = r2.Done
    (r,
     {| r2.clients :=
          <[lc := {| r2.Client_Transport := r2.RoundTripper_Transport (Some lt);
                     r2.Client_fields := r2.Client_fields c |}]> (r2.clients h);
        r2.transports :=
          <[lt := {| r2.Transport_TLSClientConfig := cfg;
                     r2.Transport_fields := zt |}]> (r2.transports h) |}).
Proof.
  intros Hclient Hc Hnil lt. unfold r2.TLSClientConfig, r2.ensure_Client.
  rewrite Hclient, Hc. unfold r2.ensure_Transport. rewrite Hnil.
  cbn. rewrite lookup_insert_eq. by rewrite insert_insert_eq.
Qed.

Lemma TLSClientConfig_transport cfg (r : Request) (h : Heap) lc c lt t :
  r2.Request_Client r = Some lc ->
  r2.clients h !! lc = Some c ->
  r2.Client_Transport c = r2.RoundTripper_Transport (Some lt) ->
  r2.transports h !! lt = Some t ->
  TLSClientConfig cfg r h = r2.Done
    (r,
     {| r2.clients := r2.clients h;
        r2.transports :=
          <[lt := {| r2.Transport_TLSClientConfig := cfg;
                     r2.Transport_fields := r2.Transport_fields t |}]>
            (r2.transports h) |}).
Proof.
  intros Hclient Hc Htransport Ht. unfold r2.TLSClientConfig, r2.ensure_Client.
  rewrite Hclient, Hc. unfold r2.ensure_Transport, r2.set_config.
  rewrite Htransport. cbn. rewrite Htransport. by rewrite Ht.
Qed.

Lemma TLSClientConfig_other cfg (r : Request) (h : Heap) lc c v :
  r2.Request_Client r = Some lc ->
  r2.clients h !! lc = Some c ->
  r2.Client_Transport c = r2.RoundTripper_other v ->
  TLSClientConfig cfg r h = r2.Done (r, h).
Proof.
  intros Hclient Hc Htransport. unfold r2.TLSClientConfig, r2.ensure_Client.
  rewrite Hclient, Hc. unfold r2.ensure_Transport, r2.set_config.
  rewrite Htransport. cbn. by rewrite Htransport.
Qed.

Lemma TLSClientConfig_nil_pointer cfg (r : Request) (h : Heap) lc c :
  r2.Request_Client r = Some lc ->
  r2.clients h !! lc = Some c ->
  r2.Client_Transport c = r2.RoundTripper_Transport None ->
  TLSClientConfig cfg r h = r2.NilDereference.
Proof.
  intros Hclient Hc Htransport. unfold r2.TLSClientConfig, r2.ensure_Client.
  rewrite Hclient, Hc. unfold r2.ensure_Transport, r2.set_config.
  rewrite Htransport. cbn. by rewrite Htransport.
Qed.

(** C8, amended: for every Request whose pointers lead to objects and
    whose Client does not hold a nil pointer to an http.Transport as its
    Transport, and for every TLS config, the option ends and leaves the
    Request with a non-nil Client whose Transport is non-nil; whenever
    that Transport is a pointer to an http.Transport, the TLSClientConfig
    of the transport it leads to is the supplied config.  The other
    fields of the Request, of the Client and of every transport are
    unchanged, every other client and transport is unchanged, and a
    Client or Transport that was there is kept: a new one is allocated
    only where there was none. *)
Theorem TLSClientConfig_sets_config cfg (r : Request) (h : Heap) :
  r2.well_formed r h ->
  ~ r2.holds_nil_Transport r h ->
  exists r' h' lc c',
    TLSClientConfig cfg r h = r2.Done (r', h') /\
    r2.Request_Client r' = Some lc /\
    r2.clients h' !! lc = Some c' /\
    r2.Client_Transport c' <> r2.RoundTripper_nil /\
    (forall p, r2.Client_Transport c' = r2.RoundTripper_Transport p ->
       exists lt t', p = Some lt /\ r2.transports h' !! lt = Some t' /\
         r2.Transport_TLSClientConfig t' = cfg) /\
    r2.Request_fields r' = r2.Request_fields r /\
    (forall l, r2.Request_Client r = Some l -> l = lc) /\
    (r2.Request_Client r = None -> r2.clients h !! lc = None) /\
    (forall c, r2.clients h !! lc = Some c ->
       r2.Client_fields c' = r2.Client_fields c /\
       (r2.Client_Transport c <> r2.RoundTripper_nil ->
          r2.Client_Transport c' = r2.Client_Transport c) /\
       (r2.Client_Transport c = r2.RoundTripper_nil ->
          exists lt, r2.Client_Transport c' = r2.RoundTripper_Transport (Some lt) /\
            r2.transports h !! lt = None)) /\
    (forall l, l <> lc -> r2.clients h' !! l = r2.clients h !! l) /\
    (forall l, r2.Client_Transport c' <> r2.RoundTripper_Transport (Some l) ->
       r2.transports h' !! l = r2.transports h !! l) /\
    (forall l t, r2.transports h !! l = Some t ->
       exists t', r2.transports h' !! l = Some t' /\
         r2.Transport_fields t' = r2.Transport_fields t).
Proof.
  intros Hwf Hptr.
  destruct (r2.Request_Client r) as [lc|] eqn:Hclient.
  - destruct (Hwf lc Hclient) as (c & Hc & Hlt).
    destruct (r2.Client_Transport c) as [|[lt|]|v] eqn:Htransport.
    + eexists _, _, lc, _. split; [by eapply TLSClientConfig_no_transport|].
      cbn. rewrite lookup_insert_eq.
      split; [done|]. split; [done|]. split; [done|].
      split. { intros p [= <-]. eexists _, _. split; [done|]. by rewrite lookup_insert_eq. }
      split; [done|]. split; [by intros ? [= ->]|]. split; [done|].
      split. { intros c0 Hc0. rewrite Hc in Hc0. injection Hc0 as <-.
               split; [done|]. split; [by rewrite Htransport|].
               intros _. eexists. split; [done|]. apply fresh_unallocated. }
      split. { intros l Hl. by rewrite lookup_insert_ne. }
      split. { intros l Hl. rewrite lookup_insert_ne; [done|]. intros Heq. apply Hl. cbn. by rewrite Heq. }
      intros l t Ht. destruct (decide (l = fresh (dom (r2.transports h)))) as [->|Hne].
      * by rewrite fresh_unallocated in Ht.
      * eexists. by rewrite lookup_insert_ne.
    + destruct (Hlt lt eq_refl) as [t Ht].
      eexists _, _, lc, c. split; [by eapply TLSClientConfig_transport|].
      cbn. split; [done|]. split; [done|]. split; [by rewrite Htransport|].
      split. { rewrite Htransport. intros p [= <-]. eexists _, _. split; [done|].
               by rewrite lookup_insert_eq. }
      split; [done|]. split; [by intros ? [= ->]|]. split; [done|].
      split. { intros c0 Hc0. rewrite Hc in Hc0. injection Hc0 as <-.
               split; [done|]. split; [done|]. by rewrite Htransport. }
      split; [done|].
      split. { rewrite Htransport. intros l Hl. rewrite lookup_insert_ne; [done|]. intros Heq. apply Hl. by rewrite Heq. }
      intros l t0 Ht0. destruct (decide (l = lt)) as [->|Hne].
      * eexists. rewrite lookup_insert_eq. split; [done|]. cbn. congruence.
      * eexists. by rewrite lookup_insert_ne.
    + exfalso. apply Hptr. by exists lc, c.
    + eexists _, _, lc, c. split; [by eapply TLSClientConfig_other|].
      split; [done|]. split; [done|]. split; [by rewrite Htransport|].
      split. { by rewrite Htransport. }
      split; [done|]. split; [by intros ? [= ->]|]. split; [done|].
      split. { intros c0 Hc0. rewrite Hc in Hc0. injection Hc0 as <-.
               split; [done|]. split; [done|]. by rewrite Htransport. }
      split; [done|]. split; [done|]. intros l t Ht. by exists t.
  - eexists _, _, _, _. split; [by apply TLSClientConfig_no_client|].
    cbn. rewrite lookup_insert_eq.
    split; [done|]. split; [done|]. split; [done|].
    split. { intros p [= <-]. eexists _, _. split; [done|]. by rewrite lookup_insert_eq. }
    split; [done|]. split; [done|]. split; [intros _; apply fresh_unallocated|].
    split. { intros c0 Hc0. by rewrite fresh_unallocated in Hc0. }
    split. { intros l Hl. by rewrite lookup_insert_ne. }
    split. { intros l Hl. rewrite lookup_insert_ne; [done|]. intros Heq. apply Hl. cbn. by rewrite Heq. }
    intros l t Ht. destruct (decide (l = fresh (dom (r2.transports h)))) as [->|Hne].
    * by rewrite fresh_unallocated in Ht.
    * eexists. by rewrite lookup_insert_ne.
Qed.
End TLSClientConfig_facts.

(** On a request without a client the option allocates a client and a
    transport that carries the config. *)
Example TLSClientConfig_allocates :
  r2.TLSClientConfig "" "" (Some 9%positive) demo.bare_request demo.empty_heap
  = r2.Done
      ({| r2.Request_Client := Some 1%positive; r2.Request_fields := "GET /" |},
       {| r2.clients :=
            {[ 1%positive :=
                 {| r2.Client_Transport := r2.RoundTripper_Transport (Some 1%positive);
                    r2.Client_fields := "" |} ]};
          r2.transports :=
            {[ 1%positive := {| r2.Transport_TLSClientConfig := Some 9%positive;
                                r2.Transport_fields := "" |} ]} |}).
Proof. by vm_compute. Qed.

(** Two requests that share a client: the option applied to one of them
    changes the transport the other one uses, too. *)
Example TLSClientConfig_shared_client :
  let other : demo.Request :=
    {| r2.Request_Client := Some 1%positive; r2.Request_fields := "POST /login" |} in
  match r2.TLSClientConfig "" "" (Some 9%positive) demo.configured_request
          demo.configured_heap with
  | r2.Done (_, h) =>
      r2.Request_Client other = r2.Request_Client demo.configured_request /\
      r2.clients h !! 1%positive = r2.clients demo.configured_heap !! 1%positive /\
      r2.Transport_TLSClientConfig <$> (r2.transports h !! 2%positive)
        = Some (Some 9%positive)
  | _ => False
  end.
Proof. by vm_compute. Qed.

(** The option on a request whose client has a transport: both are kept
    and the transport carries the config. *)
Lemma TLSClientConfig_sets_config_witness :
  exists r' h',
    r2.TLSClientConfig "" "" (Some 9%positive) demo.configured_request
      demo.configured_heap = r2.Done (r', h') /\
    r2.Request_fields r' = "GET /".
Proof.
  assert (r2.well_formed demo.configured_request demo.configured_heap) as Hwf.
  { intros lc [= <-]. eexists. split; [reflexivity|].
    intros lt [= <-]. eexists. reflexivity. }
  assert (~ r2.holds_nil_Transport demo.configured_request demo.configured_heap)
    as Hptr.
  { intros (lc & c & [= <-] & [= <-] & Hnil). discriminate Hnil. }
  destruct (TLSClientConfig_sets_config "" "" (Some 9%positive)
              demo.configured_request demo.configured_heap Hwf Hptr)
    as (r' & h' & lc & c' & Hrun & _ & _ & _ & _ & Hfields & _).
  exists r', h'. split; [exact Hrun | exact Hfields].
Defined.

(** C8 as stated fails: a Client whose Transport holds a nil pointer to an
    http.Transport passes the nil test of the interface and the type
    assertion, and the assignment through the nil pointer panics; the
    option leaves no Request behind. *)
Lemma TLSClientConfig_nil_Transport_panics :
  r2.well_formed demo.nil_transport_request demo.nil_transport_heap /\
  r2.TLSClientConfig "" "" (Some 9%positive) demo.nil_transport_request
    demo.nil_transport_heap = r2.NilDereference /\
  ~ exists r' h',
      r2.TLSClientConfig "" "" (Some 9%positive) demo.nil_transport_request
        demo.nil_transport_heap = r2.Done (r', h').
Proof.
  split; [|split].
  - intros lc [= <-]. eexists. split; [reflexivity|]. intros lt Hlt.
    discriminate Hlt.
  - reflexivity.
  - intros (r' & h' & Hrun). discriminate Hrun.
Qed.

(** ** The assertions *)

Section assert_facts.

Context {Value Type_ : Type}.
Context (Type_of : Value -> Type_) (Kind_of : Value -> reflect.Kind)
  (Len : Value -> Z) (ConvertibleTo : Type_ -> Type_ -> bool)
  (Convert : Value -> Type_ -> option Value)
  (DeepEqual : option Value -> option Value -> bool)
  (as_string : Value -> option string)
  (Sprintf_v : option Value -> string).

Abbreviation areEqual := (assert.areEqual Type_of ConvertibleTo Convert DeepEqual).
Abbreviation shouldBeEqual :=
  (assert.shouldBeEqual Type_of ConvertibleTo Convert DeepEqual Sprintf_v).
Abbreviation shouldNotBeEqual :=
  (assert.shouldNotBeEqual Type_of ConvertibleTo Convert DeepEqual Sprintf_v).
Abbreviation getLength := (assert.getLength Kind_of Len as_string).

(** What [areEqual] computes, case by case. *)
Lemma areEqual_cases (expected actual : option Value) :
  areEqual expected actual =
    match expected, actual with
    | None, None => Some true
    | None, Some _ | Some _, None => Some false
    | Some e, Some a =>
        if ConvertibleTo (Type_of e) (Type_of a)
        then (fun c => DeepEqual (Some c) actual) <$> Convert e (Type_of a)
        else Some (DeepEqual expected actual)
    end.
Proof.
  destruct expected as [e|], actual as [a|]; [|reflexivity..].
  unfold assert.areEqual. simpl.
  destruct (ConvertibleTo (Type_of e) (Type_of a)); [|reflexivity].
  by destruct (Convert e (Type_of a)).
Qed.

(** C9: for all pairs of values x and y, shouldNotBeEqual reports a
    failure exactly when shouldBeEqual reports success, and reports
    success exactly when shouldBeEqual reports a failure.  Both are
    determined by areEqual, which holds of two nils, compares a nil with a
    non-nil value as unequal, and compares the converted expected value
    with the actual one when the type of the former converts to the type
    of the latter. *)
Theorem shouldNotBeEqual_complements_shouldBeEqual (x y : option Value) :
  (assert.reports_failure (shouldNotBeEqual x y)
     <-> assert.reports_success (shouldBeEqual x y)) /\
  (assert.reports_success (shouldNotBeEqual x y)
     <-> assert.reports_failure (shouldBeEqual x y)) /\
  fst <$> shouldBeEqual x y = negb <$> areEqual x y /\
  fst <$> shouldNotBeEqual x y = areEqual x y /\
  areEqual None None = Some true /\
  (forall e a, ConvertibleTo (Type_of e) (Type_of a) = true ->
     areEqual (Some e) (Some a)
       = (fun c => DeepEqual (Some c) (Some a)) <$> Convert e (Type_of a)) /\
  (forall e a, ConvertibleTo (Type_of e) (Type_of a) = false ->
     areEqual (Some e) (Some a) = Some (DeepEqual (Some e) (Some a))).
Proof.
  unfold assert.shouldBeEqual, assert.shouldNotBeEqual,
    assert.reports_failure, assert.reports_success.
  split; [|split; [|split; [|split; [|split; [|split]]]]].
  - destruct (areEqual x y) as [[]|]; simpl; split; intros [m Hm];
      (discriminate Hm || by eexists).
  - destruct (areEqual x y) as [[]|]; simpl; split; intros [m Hm];
      (discriminate Hm || by eexists).
  - by destruct (areEqual x y) as [[]|].
  - by destruct (areEqual x y) as [[]|].
  - reflexivity.
  - intros e a Hconv. by rewrite areEqual_cases, Hconv.
  - intros e a Hconv. by rewrite areEqual_cases, Hconv.
Qed.

(** C10: for every input that is nil, the empty string, or a value whose
    kind is not a map, slice, channel or string, getLength returns 0;
    the Empty assertion succeeds on it and reports nothing, and the
    NotEmpty assertion fails on it with "Should not be empty". *)
Theorem getLength_zero_without_length
    (object : option Value) (userMessageComponents : list (option Value))
    (t : assert.Test Value) :
  object = None \/
  assert.eq_empty_string as_string object = true \/
  assert.has_length (assert.Kind Kind_of object) = false ->
  let counted := {| assert.assertion_count := assert.assertion_count t + 1;
                    assert.failures := assert.failures t |} in
  let reported message :=
    {| assert.assertion_count := assert.assertion_count t + 1;
       assert.failures :=
         assert.failures t ++
           [ {| assert.failure_message := message;
                assert.failure_userMessageComponents := userMessageComponents |} ] |} in
  getLength object = 0 /\
  assert.shouldBeEmpty Kind_of Len as_string Sprintf_v object = (false, "") /\
  assert.shouldNotBeEmpty Kind_of Len as_string object
    = (true, "Should not be empty") /\
  assert.Assertions_Empty Kind_of Len as_string Sprintf_v object
    userMessageComponents t = (assert.Continues, counted) /\
  assert.Optional_Empty Kind_of Len as_string Sprintf_v object
    userMessageComponents t = (true, counted) /\
  assert.Assertions_NotEmpty Kind_of Len as_string object
    userMessageComponents t = (assert.FailedNow, reported "Should not be empty") /\
  assert.Optional_NotEmpty Kind_of Len as_string object
    userMessageComponents t = (false, reported "(Non-Fatal) Should not be empty").
Proof.
  intros Hobject counted reported.
  assert (getLength object = 0) as Hlength.
  { unfold assert.getLength. destruct Hobject as [-> | [Hempty | Hkind]].
    - reflexivity.
    - rewrite Hempty. by destruct (assert.is_nil object).
    - destruct (assert.is_nil object); [reflexivity|].
      destruct (assert.eq_empty_string as_string object); [reflexivity|].
      by destruct (assert.Kind Kind_of object). }
  split; [exact Hlength|].
  unfold assert.Assertions_Empty, assert.Optional_Empty,
    assert.Assertions_NotEmpty, assert.Optional_NotEmpty,
    assert.shouldBeEmpty, assert.shouldNotBeEmpty.
  rewrite Hlength. repeat split.
Qed.

End assert_facts.

(** The length of an [int], of a struct and of an array is 0, and so is
    that of the empty string; [Empty] passes on the [int]. *)
Lemma getLength_zero_without_length_witness :
  assert.getLength demo.go_kind demo.go_len demo.go_as_string (Some (demo.go_int 42)) = 0 /\
  assert.getLength demo.go_kind demo.go_len demo.go_as_string (Some (demo.go_point 1 2)) = 0 /\
  assert.getLength demo.go_kind demo.go_len demo.go_as_string (Some (demo.go_array3 1 2 3)) = 0 /\
  assert.getLength demo.go_kind demo.go_len demo.go_as_string (Some (demo.go_string "")) = 0 /\
  assert.Optional_NotEmpty demo.go_kind demo.go_len demo.go_as_string
    (Some (demo.go_int 42)) [] demo.new_test
  = (false,
     {| assert.assertion_count := 1;
        assert.failures :=
          [ {| assert.failure_message := "(Non-Fatal) Should not be empty";
               assert.failure_userMessageComponents := [] |} ] |}).
Proof.
  pose (facts := fun object H =>
    getLength_zero_without_length demo.go_kind demo.go_len demo.go_as_string
      demo.go_Sprintf_v object [] demo.new_test H).
  split; [exact (proj1 (facts (Some (demo.go_int 42)) (or_intror (or_intror eq_refl))))|].
  split; [exact (proj1 (facts (Some (demo.go_point 1 2)) (or_intror (or_intror eq_refl))))|].
  split; [exact (proj1 (facts (Some (demo.go_array3 1 2 3)) (or_intror (or_intror eq_refl))))|].
  split; [exact (proj1 (facts (Some (demo.go_string "")) (or_intror (or_introl eq_refl))))|].
  exact (proj2 (proj2 (proj2 (proj2 (proj2 (proj2
    (facts (Some (demo.go_int 42)) (or_intror (or_intror eq_refl))))))))).
Defined.

(** [areEqual] converts before it compares: an [int64] equals the [int]
    of the same value, which [DeepEqual] alone tells apart. *)
Example areEqual_converts :
  assert.areEqual demo.num_Type_of demo.num_ConvertibleTo demo.num_Convert
    demo.num_DeepEqual (Some (demo.num_int64 3)) (Some (demo.num_int 3)) = Some true /\
  demo.num_DeepEqual (Some (demo.num_int64 3)) (Some (demo.num_int 3)) = false /\
  assert.areEqual demo.num_Type_of demo.num_ConvertibleTo demo.num_Convert
    demo.num_DeepEqual None (Some (demo.num_int 0)) = Some false.
Proof. repeat split. Qed.

(** * Further properties of the code *)

(** ** The management server *)

Section management_server_calls.

Context {JM : Type} `{!jm.Ops JM}.
Context {Ctx : Type} (RouteParam : Ctx -> string -> string * option error).

(** X1: when the route parameter jobName cannot be read, each handler of a
    route with that parameter (job.status, job.run, job.cancel, job.enable,
    job.disable) answers with a bad request that carries the error of the
    route parameter, and the job manager is not called: it is left as it
    was. *)
Theorem named_route_without_parameter
    (n : jobkit.NamedRoute) (r : Ctx) (m : JM) (err : error) :
  (RouteParam r "jobName").2 = Some err ->
  jobkit.named_handler RouteParam n r m = (web.JSON_BadRequest err, m).
Proof.
  intros Herr. destruct (RouteParam r "jobName") as [jobName e] eqn:Hparam.
  simpl in Herr. subst e.
  destruct n as [|[]]; simpl;
    unfold jobkit.handle_job_status, jobkit.handle_job_run,
      jobkit.handle_job_cancel, jobkit.handle_job_enable,
      jobkit.handle_job_disable;
    by rewrite Hparam.
Qed.

(** X2: the handlers of GET /, GET /api/jobs and GET /healthz call the job
    manager exactly once, with a query (Status, Status, IsRunning); their
    response is the view "index" of the status, the status as JSON, and the
    health result, and the manager is left as that one call left it. *)
Theorem query_endpoints_call_once (r : Ctx) (m : JM) (log : list jm.Call) :
  jobkit.handle_index r ((m, log) : jm.Traced JM)
    = (web.View_View "index" (web.PayloadStatus (jm.Status m).1),
       ((jm.Status m).2, (log ++ [jm.CallStatus])%list)) /\
  jobkit.handle_api_jobs r ((m, log) : jm.Traced JM)
    = (web.JSON_Result (web.PayloadStatus (jm.Status m).1),
       ((jm.Status m).2, (log ++ [jm.CallStatus])%list)) /\
  jobkit.handle_healthz r ((m, log) : jm.Traced JM)
    = ((jobkit.handle_healthz r m).1,
       ((jm.IsRunning m).2, (log ++ [jm.CallIsRunning])%list)) /\
  forallb jm.is_query [jm.CallStatus; jm.CallIsRunning] = true.
Proof.
  unfold jobkit.handle_index, jobkit.handle_api_jobs, jobkit.handle_healthz.
  rewrite !bind_run. simpl. unfold jm.traced.
  destruct (jm.Status m) as [status m1], (jm.IsRunning m) as [[] m2];
    repeat split.
Qed.

(** X3: once the route parameter jobName is read, the handler of a control
    endpoint calls the job manager exactly once: the operation of the
    endpoint, on the job the route names.  Its response and the manager it
    leaves are those of the handler on the manager alone. *)
Theorem control_endpoint_calls_once
    (c : jobkit.Control) (r : Ctx) (jobName : string) (m : JM)
    (log : list jm.Call) :
  RouteParam r "jobName" = (jobName, None) ->
  jobkit.control_handler RouteParam c r ((m, log) : jm.Traced JM)
    = ((jobkit.control_handler RouteParam c r m).1,
       ((jobkit.control_handler RouteParam c r m).2,
        (log ++ [jobkit.control_call c jobName])%list)).
Proof.
  intros Hparam.
  rewrite (control_handler_run RouteParam c r jobName (m, log) Hparam).
  rewrite (control_handler_run RouteParam c r jobName m Hparam).
  destruct c; simpl; unfold jm.traced;
    match goal with |- context [?op jobName m] =>
      destruct (op jobName m) as [[err|] m'] end; reflexivity.
Qed.

End management_server_calls.

(** A request without route parameters, on the job.cancel handler. *)
Lemma named_route_without_parameter_witness :
  jobkit.handle_job_cancel demo.RouteParam (∅ : demo.Ctx) demo.manager
    = (web.JSON_BadRequest (ErrParameterMissing "jobName"), demo.manager).
Proof.
  exact (named_route_without_parameter demo.RouteParam
           (jobkit.route_control jobkit.job_cancel) ∅ demo.manager
           (ErrParameterMissing "jobName") eq_refl).
Defined.

(** Disabling job A, with the calls logged. *)
Lemma control_endpoint_calls_once_witness :
  (jobkit.handle_job_disable demo.RouteParam (demo.request "A")
     ((demo.manager, []) : jm.Traced cron.JobManager)).2.2
    = [jm.CallDisableJob "A"].
Proof.
  exact (f_equal (fun x => x.2.2)
           (control_endpoint_calls_once demo.RouteParam jobkit.job_disable
              (demo.request "A") "A" demo.manager [] eq_refl)).
Defined.

(** ** The TLS option *)

Section TLSClientConfig_more.

Context {RequestFields ClientFields TransportFields OtherRoundTripper : Type}.
Context (zc : ClientFields) (zt : TransportFields).

Abbreviation Heap' := (r2.Heap ClientFields TransportFields OtherRoundTripper).
Abbreviation Request' := (r2.Request RequestFields).
Abbreviation TLSClientConfig' := (r2.TLSClientConfig zc zt).

(** X4: on a request whose client has a round tripper that is not a
    pointer to an http.Transport, the option changes nothing: the request
    and the heap are as before and the config is dropped without an
    error. *)
Theorem TLSClientConfig_keeps_other_RoundTripper
    (cfg : option r2.loc) (r : Request') (h : Heap') (lc : r2.loc)
    (c : r2.http_Client ClientFields OtherRoundTripper) (v : OtherRoundTripper) :
  r2.Request_Client r = Some lc ->
  r2.clients h !! lc = Some c ->
  r2.Client_Transport c = r2.RoundTripper_other v ->
  TLSClientConfig' cfg r h = r2.Done (r, h).
Proof. intros. by eapply TLSClientConfig_other. Qed.

(** X5: on a request whose client holds a nil pointer to an http.Transport
    as its Transport, the option panics with a nil dereference, whatever
    the config. *)
Theorem TLSClientConfig_panics_on_nil_Transport
    (cfg : option r2.loc) (r : Request') (h : Heap') :
  r2.holds_nil_Transport r h ->
  TLSClientConfig' cfg r h = r2.NilDereference.
Proof.
  intros (lc & c & Hclient & Hc & Hnil). by eapply TLSClientConfig_nil_pointer.
Qed.

(** X6: the option applied after itself: when a first application with
    some config ends, a second application with any config ends like that
    config applied alone to the first request; it allocates nothing more and
    the last config is the one that stays.  In particular the option is
    idempotent. *)
Theorem TLSClientConfig_last_wins
    (cfg1 cfg2 : option r2.loc) (r r1 : Request') (h h1 : Heap') :
  TLSClientConfig' cfg1 r h = r2.Done (r1, h1) ->
  TLSClientConfig' cfg2 r1 h1 = TLSClientConfig' cfg2 r h /\
  TLSClientConfig' cfg1 r1 h1 = r2.Done (r1, h1).
Proof.
  assert (forall cfg, TLSClientConfig' cfg1 r h = r2.Done (r1, h1) ->
            TLSClientConfig' cfg r1 h1 = TLSClientConfig' cfg r h) as Hagain.
  { intros cfg Hfirst.
    destruct (r2.Request_Client r) as [lc|] eqn:Hclient.
    - destruct (r2.clients h !! lc) as [c|] eqn:Hc.
      + destruct (r2.Client_Transport c) as [|[lt|]|v] eqn:Htransport.
        * rewrite (TLSClientConfig_no_transport zc zt cfg1 r h lc c Hclient Hc Htransport)
            in Hfirst.
          injection Hfirst as <- <-.
          rewrite (TLSClientConfig_no_transport zc zt cfg r h lc c Hclient Hc Htransport).
          erewrite TLSClientConfig_transport;
            [|exact Hclient|apply lookup_insert_eq|reflexivity|apply lookup_insert_eq].
          cbn. by rewrite insert_insert_eq.
        * destruct (r2.transports h !! lt) as [t|] eqn:Ht.
          -- rewrite (TLSClientConfig_transport zc zt cfg1 r h lc c lt t
                        Hclient Hc Htransport Ht) in Hfirst.
             injection Hfirst as <- <-.
             rewrite (TLSClientConfig_transport zc zt cfg r h lc c lt t
                        Hclient Hc Htransport Ht).
             erewrite TLSClientConfig_transport;
               [|exact Hclient|exact Hc|exact Htransport|apply lookup_insert_eq].
             cbn. by rewrite insert_insert_eq.
          -- exfalso. revert Hfirst. unfold r2.TLSClientConfig, r2.ensure_Client.
             rewrite Hclient, Hc. unfold r2.ensure_Transport, r2.set_config.
             rewrite Htransport. cbn. rewrite Htransport. by rewrite Ht.
        * by rewrite (TLSClientConfig_nil_pointer zc zt cfg1 r h lc c
                        Hclient Hc Htransport) in Hfirst.
        * rewrite (TLSClientConfig_other zc zt cfg1 r h lc c v
                     Hclient Hc Htransport) in Hfirst.
          by injection Hfirst as <- <-.
      + exfalso. revert Hfirst. unfold r2.TLSClientConfig, r2.ensure_Client.
        by rewrite Hclient, Hc.
    - rewrite (TLSClientConfig_no_client zc zt cfg1 r h Hclient) in Hfirst.
      injection Hfirst as <- <-.
      rewrite (TLSClientConfig_no_client zc zt cfg r h Hclient).
      erewrite TLSClientConfig_transport;
        [|reflexivity|apply lookup_insert_eq|reflexivity|apply lookup_insert_eq].
      cbn. by rewrite insert_insert_eq. }
  intros Hfirst. split; [by apply Hagain|].
  rewrite (Hagain cfg1 Hfirst). exact Hfirst.
Qed.

End TLSClientConfig_more.

(** A client with a round tripper of its own: the option leaves it alone. *)
Lemma TLSClientConfig_keeps_other_RoundTripper_witness :
  r2.TLSClientConfig "" "" (Some 9%positive) demo.configured_request demo.custom_heap
    = r2.Done (demo.configured_request, demo.custom_heap).
Proof.
  exact (TLSClientConfig_keeps_other_RoundTripper "" "" (Some 9%positive)
           demo.configured_request demo.custom_heap 1%positive _ 7%nat
           eq_refl eq_refl eq_refl).
Defined.

(** A client that holds a nil transport pointer. *)
Lemma TLSClientConfig_panics_on_nil_Transport_witness :
  r2.TLSClientConfig "" "" None demo.nil_transport_request demo.nil_transport_heap
    = r2.NilDereference.
Proof.
  apply (TLSClientConfig_panics_on_nil_Transport "" "" None
           demo.nil_transport_request demo.nil_transport_heap).
  eexists 1%positive, _. split; [reflexivity|]. split; reflexivity.
Defined.

(** Two configs in a row on a request without a client: one client, one
    transport, the second config. *)
Lemma TLSClientConfig_last_wins_witness :
  exists r1 h1,
    r2.TLSClientConfig "" "" (Some 8%positive) demo.bare_request demo.empty_heap
      = r2.Done (r1, h1) /\
    r2.TLSClientConfig "" "" (Some 9%positive) r1 h1
      = r2.TLSClientConfig "" "" (Some 9%positive) demo.bare_request demo.empty_heap.
Proof.
  eexists _, _. split; [by vm_compute|].
  refine (proj1 (TLSClientConfig_last_wins "" "" (Some 8%positive) (Some 9%positive)
                   demo.bare_request _ demo.empty_heap _ _)).
  by vm_compute.
Defined.

(** ** More of the assertions *)

Section length_facts.

Context {Value : Type}.
Context (Kind_of : Value -> reflect.Kind) (Len : Value -> Z)
  (as_string : Value -> option string) (box_int : Z -> Value)
  (Sprintf_v : option Value -> string).

(** X7: the three length checks agree on every input: shouldBeEmpty fails
    exactly when shouldNotBeEmpty passes, shouldBeEmpty goes as
    shouldHaveLength with length 0, and shouldHaveLength passes exactly for
    the length getLength returns. *)
Theorem length_checks_agree (collection : option Value) :
  (assert.shouldBeEmpty Kind_of Len as_string Sprintf_v collection).1
    = negb (assert.shouldNotBeEmpty Kind_of Len as_string collection).1 /\
  (assert.shouldBeEmpty Kind_of Len as_string Sprintf_v collection).1
    = (assert.shouldHaveLength Kind_of Len as_string box_int Sprintf_v collection 0).1 /\
  forall length : Z,
    (assert.shouldHaveLength Kind_of Len as_string box_int Sprintf_v
       collection length).1 = false
    <-> assert.getLength Kind_of Len as_string collection = length.
Proof.
  unfold assert.shouldBeEmpty, assert.shouldNotBeEmpty, assert.shouldHaveLength.
  split; [|split].
  - by destruct (assert.getLength Kind_of Len as_string collection =? 0).
  - by destruct (assert.getLength Kind_of Len as_string collection =? 0).
  - intros length.
    destruct (Z.eqb_spec (assert.getLength Kind_of Len as_string collection) length);
      simpl; split; (done || lia).
Qed.

(** X8: for a value whose kind is a map, a slice, a channel or a string,
    getLength is the length reflect reports, and 0 for the empty string. *)
Theorem getLength_is_Len (v : Value) :
  assert.has_length (Kind_of v) = true ->
  assert.getLength Kind_of Len as_string (Some v)
    = if assert.eq_empty_string as_string (Some v) then 0 else Len v.
Proof.
  intros Hkind. unfold assert.getLength. simpl assert.is_nil. cbv iota.
  destruct (assert.eq_empty_string as_string (Some v)); [reflexivity|].
  simpl. by destruct (Kind_of v).
Qed.

(** X11: an assertion of Optional and the assertion of Assertions of the
    same name (Len, Empty, NotEmpty, True, False) go the same way on the
    same test: both count one assertion; either both pass and report
    nothing, or the optional one returns false, the other one ends the
    test, and each reports one failure, the optional one with the non-fatal
    prefix before the same message. *)
Theorem optional_and_fatal_agree
    (collection : option Value) (length : Z) (object : bool)
    (userMessageComponents : list (option Value)) (t : assert.Test Value) :
  assert.same_assertion
    (assert.Optional_Len Kind_of Len as_string box_int Sprintf_v collection length
       userMessageComponents)
    (assert.Assertions_Len Kind_of Len as_string box_int Sprintf_v collection length
       userMessageComponents) userMessageComponents t /\
  assert.same_assertion
    (assert.Optional_Empty Kind_of Len as_string Sprintf_v collection
       userMessageComponents)
    (assert.Assertions_Empty Kind_of Len as_string Sprintf_v collection
       userMessageComponents) userMessageComponents t /\
  assert.same_assertion
    (assert.Optional_NotEmpty Kind_of Len as_string collection userMessageComponents)
    (assert.Assertions_NotEmpty Kind_of Len as_string collection
       userMessageComponents) userMessageComponents t /\
  assert.same_assertion
    (assert.Optional_True object userMessageComponents)
    (assert.Assertions_True object userMessageComponents) userMessageComponents t /\
  assert.same_assertion
    (assert.Optional_False object userMessageComponents)
    (assert.Assertions_False object userMessageComponents) userMessageComponents t.
Proof.
  unfold assert.same_assertion.
  unfold assert.Optional_Len, assert.Assertions_Len, assert.Optional_Empty,
    assert.Assertions_Empty, assert.Optional_NotEmpty, assert.Assertions_NotEmpty,
    assert.Optional_True, assert.Assertions_True, assert.Optional_False,
    assert.Assertions_False.
  repeat split;
    match goal with
    | |- context [let '(didFail, message) := ?check in _] =>
        destruct check as [[] message] eqn:Hcheck
    end;
    solve [ left; split; reflexivity
          | right; exists message; split; reflexivity ].
Qed.

End length_facts.

(** The length of a string and of a slice of strings. *)
Lemma getLength_is_Len_witness :
  assert.getLength demo.go_kind demo.go_len demo.go_as_string
    (Some (demo.go_string "abc")) = 3 /\
  assert.getLength demo.go_kind demo.go_len demo.go_as_string
    (Some (demo.go_strings (Some ["a"; "b"]))) = 2 /\
  assert.getLength demo.go_kind demo.go_len demo.go_as_string
    (Some (demo.go_strings None)) = 0.
Proof.
  split; [|split].
  - exact (getLength_is_Len demo.go_kind demo.go_len demo.go_as_string
             (demo.go_string "abc") eq_refl).
  - exact (getLength_is_Len demo.go_kind demo.go_len demo.go_as_string
             (demo.go_strings (Some ["a"; "b"])) eq_refl).
  - exact (getLength_is_Len demo.go_kind demo.go_len demo.go_as_string
             (demo.go_strings None) eq_refl).
Defined.

(** Membership of a kind in a list of kinds, decided case by case. *)
Ltac kind_not_listed H :=
  repeat (apply elem_of_cons in H as [H|H]; [discriminate H|]);
  by apply elem_of_nil in H.

Section nil_facts.

Context {Value Type_ : Type}.
Context (Type_of : Value -> Type_) (Kind_of : Value -> reflect.Kind)
  (ConvertibleTo : Type_ -> Type_ -> bool)
  (Convert : Value -> Type_ -> option Value)
  (DeepEqual : option Value -> option Value -> bool)
  (box_int : Z -> Value)
  (Sprintf_v : option Value -> string)
  (IsNil : Value -> option bool).

(** X9: provided reflect's IsNil answers on values of the kinds that have
    a nil (chan, func, interface, map, pointer, slice), isNil never panics.
    It holds exactly of the nil interface and of the values of those six
    kinds that IsNil reports nil; a value of any other kind is not nil and
    IsNil is not asked.  shouldBeNil fails exactly when isNil is false and
    shouldNotBeNil exactly when it is true. *)
Theorem isNil_spec (object : option Value) :
  (forall v, Kind_of v ∈ [reflect.Chan; reflect.Func; reflect.Interface;
                          reflect.Map; reflect.Ptr; reflect.Slice] ->
             is_Some (IsNil v)) ->
  exists b : bool,
    assert.isNil Kind_of IsNil object = Some b /\
    (b = true <->
       object = None \/
       exists v, object = Some v /\
         Kind_of v ∈ [reflect.Chan; reflect.Func; reflect.Interface;
                      reflect.Map; reflect.Ptr; reflect.Slice] /\
         IsNil v = Some true) /\
    fst <$> assert.shouldBeNil Kind_of Sprintf_v IsNil object = Some (negb b) /\
    fst <$> assert.shouldNotBeNil Kind_of IsNil object = Some b.
Proof.
  intros Hdefined.
  assert (forall v,
            assert.isNil Kind_of IsNil (Some v)
            = if decide (Kind_of v ∈ [reflect.Chan; reflect.Func; reflect.Interface;
                                      reflect.Map; reflect.Ptr; reflect.Slice])
              then IsNil v else Some false) as Hsome.
  { intros v. unfold assert.isNil.
    destruct (Kind_of v); cbn; case_decide as Hkind; try reflexivity;
      exfalso; first [ by (apply Hkind; repeat constructor) | kind_not_listed Hkind ]. }
  unfold assert.shouldBeNil, assert.shouldNotBeNil.
  destruct object as [v|].
  - rewrite Hsome. case_decide as Hkind.
    + destruct (Hdefined v Hkind) as [b Hb]. exists b. rewrite Hb.
      split; [reflexivity|]. split.
      * split.
        -- intros ->. right. exists v. by repeat split.
        -- intros [[=] | (v' & [= <-] & _ & Hnil)]. congruence.
      * by destruct b.
    + exists false. split; [reflexivity|]. split; [|done].
      split; [done|]. intros [[=] | (v' & [= <-] & Hin & _)]. done.
  - exists true. split; [reflexivity|]. split; [|done]. split; [by left|done].
Qed.

(** X10: shouldBeZero and shouldBeNonZero are decided by areEqual(0, value):
    one fails exactly when the other passes and they panic together.  The
    nil interface is not zero: shouldBeZero fails on it and shouldBeNonZero
    passes.  shouldBeTrue and shouldBeFalse are complements as well. *)
Theorem zero_and_true_checks (value : option Value) (b : bool) :
  fst <$> assert.shouldBeZero Type_of ConvertibleTo Convert DeepEqual box_int
            Sprintf_v value
    = negb <$> (fst <$> assert.shouldBeNonZero Type_of ConvertibleTo Convert
                          DeepEqual box_int value) /\
  fst <$> assert.shouldBeNonZero Type_of ConvertibleTo Convert DeepEqual box_int value
    = assert.areEqual Type_of ConvertibleTo Convert DeepEqual (Some (box_int 0)) value /\
  fst <$> assert.shouldBeZero Type_of ConvertibleTo Convert DeepEqual box_int
            Sprintf_v None = Some true /\
  assert.shouldBeNonZero Type_of ConvertibleTo Convert DeepEqual box_int None
    = Some (false, "") /\
  (assert.shouldBeTrue b).1 = negb (assert.shouldBeFalse b).1 /\
  (assert.shouldBeTrue b).1 = negb b.
Proof.
  unfold assert.shouldBeZero, assert.shouldBeNonZero, assert.isZero.
  repeat split; try by destruct b.
  - by destruct (assert.areEqual _ _ _ _ _ value) as [[]|].
  - by destruct (assert.areEqual _ _ _ _ _ value) as [[]|].
Qed.

(** X14: shouldBePanicEqual passes exactly when the action panicked with a
    non-nil value that areEqual finds equal to the expected one.  An action
    that returns, or whose recovered value is nil, fails with "Should have
    produced a panic", and areEqual is not asked. *)
Theorem shouldBePanicEqual_spec (expected : option Value) (action : assert.Outcome Value) :
  (action = assert.Returns \/ action = assert.Panics None ->
     assert.shouldBePanicEqual Type_of ConvertibleTo Convert DeepEqual Sprintf_v
       expected action = Some (true, "Should have produced a panic")) /\
  (forall v, action = assert.Panics (Some v) ->
     fst <$> assert.shouldBePanicEqual Type_of ConvertibleTo Convert DeepEqual
               Sprintf_v expected action
       = negb <$> assert.areEqual Type_of ConvertibleTo Convert DeepEqual
                    expected (Some v)) /\
  (assert.reports_success
     (assert.shouldBePanicEqual Type_of ConvertibleTo Convert DeepEqual Sprintf_v
        expected action)
   <-> exists v, action = assert.Panics (Some v) /\
         assert.areEqual Type_of ConvertibleTo Convert DeepEqual expected (Some v)
           = Some true).
Proof.
  unfold assert.shouldBePanicEqual, assert.reports_success.
  split; [|split].
  - by intros [-> | ->].
  - intros v ->. simpl.
    by destruct (assert.areEqual _ _ _ _ expected (Some v)) as [[]|].
  - destruct action as [|[v|]]; simpl.
    + split; [by intros [m [=]]|]. by intros (v & [=] & _).
    + destruct (assert.areEqual _ _ _ _ expected (Some v)) as [[]|] eqn:Heq; simpl.
      * split; [|by eexists]. intros _. by exists v.
      * split; [by intros [m [=]]|]. intros (v' & [= <-] & Heq'). congruence.
      * split; [by intros [m [=]]|]. intros (v' & [= <-] & Heq'). congruence.
    + split; [by intros [m [=]]|]. by intros (v & [=] & _).
Qed.

End nil_facts.

(** On the demo values IsNil answers on slices, the only kind with a nil
    among them: a nil slice in an interface is nil, an int is not. *)
Lemma isNil_spec_witness :
  assert.isNil demo.go_kind demo.go_IsNil (Some (demo.go_strings None)) = Some true /\
  assert.isNil demo.go_kind demo.go_IsNil (Some (demo.go_int 0)) = Some false.
Proof.
  assert (forall v, demo.go_kind v ∈ [reflect.Chan; reflect.Func; reflect.Interface;
                                      reflect.Map; reflect.Ptr; reflect.Slice] ->
                    is_Some (demo.go_IsNil v)) as Hdefined.
  { intros [z|s|[l|]|x y|a b c] Hkind; simpl; try by eexists.
    all: exfalso; simpl in Hkind; kind_not_listed Hkind. }
  split.
  - destruct (isNil_spec demo.go_kind demo.go_Sprintf_v demo.go_IsNil
                (Some (demo.go_strings None)) Hdefined) as (b & Hb & Hiff & _).
    rewrite Hb. f_equal. apply Hiff. right. eexists. split; [reflexivity|].
    split; [simpl; repeat constructor|reflexivity].
  - destruct (isNil_spec demo.go_kind demo.go_Sprintf_v demo.go_IsNil
                (Some (demo.go_int 0)) Hdefined) as (b & Hb & Hiff & _).
    destruct b; [|exact Hb]. exfalso.
    destruct (proj1 Hiff eq_refl) as [[=]|(v & [= <-] & Hkind & _)].
    simpl in Hkind. kind_not_listed Hkind.
Defined.

Section slice_facts.

Context {A : Type} (Sprintf_v : A -> string).

(** X12: over a slice of ints, floats or strings, the Any check passes
    exactly when the predicate holds of some element, and the None check
    passes exactly when it holds of none: Any fails exactly when None
    passes.  On failure None names the first element the predicate holds
    of.  On an empty slice Any fails and None passes. *)
Theorem shouldAnyOf_shouldNoneOf (target : list A) (predicate : A -> bool) :
  ((assert.shouldAnyOf target predicate).1 = false
     <-> Exists (fun x => predicate x = true) target) /\
  ((assert.shouldNoneOf Sprintf_v target predicate).1 = false
     <-> Forall (fun x => predicate x = false) target) /\
  (assert.shouldAnyOf target predicate).1
    = negb (assert.shouldNoneOf Sprintf_v target predicate).1 /\
  (forall message,
     assert.shouldNoneOf Sprintf_v target predicate = (true, message) ->
     exists before x after,
       target = (before ++ x :: after)%list /\
       Forall (fun y => predicate y = false) before /\
       predicate x = true /\
       message = "Predicate passed for element in target: " ++ Sprintf_v x) /\
  (assert.shouldAnyOf [] predicate).1 = true /\
  (assert.shouldNoneOf Sprintf_v [] predicate).1 = false.
Proof.
  split; [|split; [|split; [|split; [|split]]]]; try reflexivity.
  - induction target as [|x target IH]; simpl.
    + split; [done|]. by intros ?%Exists_nil.
    + rewrite Exists_cons. destruct (predicate x); [by split; [left|]|].
      rewrite IH. split; [by right|]. by intros [|].
  - induction target as [|x target IH]; simpl.
    + by split; [constructor|].
    + rewrite Forall_cons. destruct (predicate x); [by split; [|intros []]|].
      rewrite IH. by split; [|intros []].
  - induction target as [|x target IH]; simpl; [done|].
    by destruct (predicate x).
  - induction target as [|x target IH]; simpl; intros message Hfail; [done|].
    destruct (predicate x) eqn:Hx.
    + injection Hfail as <-. by exists [], x, target.
    + destruct (IH message Hfail) as (before & y & after & -> & Hbefore & Hy & ->).
      exists (x :: before), y, after. repeat split; try done. by constructor.
Qed.

(** X13: over a slice of ints, floats or strings, the All check passes
    exactly when the predicate holds of every element, in particular on an
    empty slice; when it fails, its message names the first element the
    predicate does not hold of.  All of a predicate goes as None of its
    negation. *)
Theorem shouldAllOf_spec (target : list A) (predicate : A -> bool) :
  ((assert.shouldAllOf Sprintf_v target predicate).1 = false
     <-> Forall (fun x => predicate x = true) target) /\
  (forall message,
     assert.shouldAllOf Sprintf_v target predicate = (true, message) ->
     exists before x after,
       target = (before ++ x :: after)%list /\
       Forall (fun y => predicate y = true) before /\
       predicate x = false /\
       message = "Predicate failed for element in target: " ++ Sprintf_v x) /\
  (assert.shouldAllOf Sprintf_v target predicate).1
    = (assert.shouldNoneOf Sprintf_v target (fun x => negb (predicate x))).1 /\
  assert.shouldAllOf Sprintf_v [] predicate = (false, "").
Proof.
  split; [|split; [|split]]; try reflexivity.
  - induction target as [|x target IH]; simpl.
    + by split; [constructor|].
    + rewrite Forall_cons. destruct (predicate x); simpl; [|by split; [|intros []]].
      rewrite IH. by split; [|intros []].
  - induction target as [|x target IH]; simpl; intros message Hfail; [done|].
    destruct (predicate x) eqn:Hx; simpl in Hfail.
    + destruct (IH message Hfail) as (before & y & after & -> & Hbefore & Hy & ->).
      exists (x :: before), y, after. repeat split; try done. by constructor.
    + injection Hfail as <-. by exists [], x, target.
  - induction target as [|x target IH]; simpl; [done|].
    by destruct (predicate x).
Qed.

End slice_facts.

Section time_facts.

Context (Format_RFC3339 : Time -> string) (Sprintf_Duration : Duration -> string).

(** X15: shouldBeInTimeDelta does not depend on the order of the two
    times, and fails exactly when the delta is below the distance between
    them, the distance being cut at the largest duration.  Two equal times
    are within every delta that is not negative. *)
Theorem shouldBeInTimeDelta_spec (from to : Time) (delta : Duration) :
  (assert.shouldBeInTimeDelta Format_RFC3339 Sprintf_Duration from to delta).1
    = (assert.shouldBeInTimeDelta Format_RFC3339 Sprintf_Duration to from delta).1 /\
  ((assert.shouldBeInTimeDelta Format_RFC3339 Sprintf_Duration from to delta).1 = true
     <-> delta < Z.min (Z.abs (from - to)) assert.maxDuration) /\
  ((assert.shouldBeInTimeDelta Format_RFC3339 Sprintf_Duration from from delta).1 = true
     <-> delta < 0).
Proof.
  assert (forall a b d,
            (assert.shouldBeInTimeDelta Format_RFC3339 Sprintf_Duration a b d).1 = true
            <-> d < Z.min (Z.abs (a - b)) assert.maxDuration) as Hfails.
  { intros a b d.
    unfold assert.shouldBeInTimeDelta, assert.Time_After, assert.Time_Sub,
      assert.maxDuration, assert.minDuration.
    change (2 ^ 63) with 9223372036854775808.
    repeat match goal with
           | |- context [?x <? ?y] =>
               lazymatch y with
               | context [if _ then _ else _] => fail
               | _ => destruct (Z.ltb_spec x y)
               end
           end; simpl; split; intros; (done || lia). }
  split; [|split].
  - destruct (assert.shouldBeInTimeDelta _ _ from to delta).1 eqn:Hft,
      (assert.shouldBeInTimeDelta _ _ to from delta).1 eqn:Htf; try reflexivity.
    + apply Hfails in Hft. apply not_true_iff_false in Htf.
      exfalso. apply Htf, Hfails. lia.
    + apply Hfails in Htf. apply not_true_iff_false in Hft.
      exfalso. apply Hft, Hfails. lia.
  - apply Hfails.
  - rewrite Hfails. unfold assert.maxDuration. change (2 ^ 63) with 9223372036854775808.
    lia.
Qed.

End time_facts.

Section test_name_facts.

Context (DecodeRuneInString : string -> Z) (IsLower : Z -> bool).

Lemma prefix_app (p s : string) :
  String.prefix p s = true <-> exists rest, s = p ++ rest.
Proof.
  revert s. induction p as [|a p IH]; intros s.
  - split; [intros _; by exists s|]. intros _. by destruct s.
  - destruct s as [|b s]; [split; [done|by intros [rest [=]]]|].
    simpl. destruct (Ascii.ascii_dec a b) as [->|Hne].
    + rewrite IH. split; intros [rest Hrest]; exists rest.
      * by rewrite Hrest.
      * by injection Hrest.
    + split; [done|]. intros [rest [= -> _]]. done.
Qed.

Lemma substring_app (p rest : string) :
  String.substring (String.length p) (String.length rest) (p ++ rest) = rest.
Proof.
  induction p as [|a p IH]; [|exact IH].
  change (String.substring 0 (String.length rest) rest = rest).
  induction rest as [|b rest IHrest]; simpl; [reflexivity|]. by rewrite IHrest.
Qed.

Lemma length_app_string (p rest : string) :
  String.length (p ++ rest) = (String.length p + String.length rest)%nat.
Proof.
  induction p as [|a p IH]; [reflexivity|].
  change (S (String.length (p ++ rest)) = S (String.length p + String.length rest)).
  by rewrite IH.
Qed.

Lemma app_inv_head_string (p r1 r2 : string) : p ++ r1 = p ++ r2 -> r1 = r2.
Proof.
  induction p as [|a p IH]; intros Heq; [exact Heq|].
  change (String a (p ++ r1) = String a (p ++ r2)) in Heq.
  injection Heq as Heq. by apply IH.
Qed.

(** X16: isTest holds of a name exactly when the name is the prefix
    followed by nothing, or followed by a rest whose first rune is not a
    lower-case letter: "Test" and "TestFoo" are test names, "Testify" is
    not. *)
Theorem isTest_spec (name prefix : string) :
  assert.isTest DecodeRuneInString IsLower name prefix = true <->
  exists rest, name = prefix ++ rest /\
    (rest = "" \/ IsLower (DecodeRuneInString rest) = false).
Proof.
  unfold assert.isTest.
  destruct (String.prefix prefix name) eqn:Hprefix; simpl.
  - apply prefix_app in Hprefix as [rest ->].
    rewrite length_app_string.
    replace (String.length prefix + String.length rest - String.length prefix)%nat
      with (String.length rest) by lia.
    rewrite substring_app.
    destruct (Nat.eqb_spec (String.length prefix + String.length rest)
                (String.length prefix)) as [Hlen|Hlen].
    + assert (rest = "") as -> by (destruct rest; [done|simpl in Hlen; lia]).
      split; [|done]. intros _. exists "". by split; [|left].
    + rewrite negb_true_iff. split.
      * intros Hlower. exists rest. by split; [|right].
      * intros (rest' & Heq & Hrest).
        assert (rest' = rest) as -> by (symmetry; by eapply app_inv_head_string).
        destruct Hrest as [->|Hlower]; [simpl in Hlen; lia|done].
  - split; [done|]. intros (rest & -> & _).
    assert (String.prefix prefix (prefix ++ rest) = true) as Hp
      by (apply prefix_app; by exists rest).
    congruence.
Qed.

End test_name_facts.

(** Names of test functions, with the lower-case letters of ASCII. *)
Example isTest_examples :
  assert.isTest demo.ascii_rune demo.ascii_IsLower "Test" "Test" = true /\
  assert.isTest demo.ascii_rune demo.ascii_IsLower "TestFoo" "Test" = true /\
  assert.isTest demo.ascii_rune demo.ascii_IsLower "Test_foo" "Test" = true /\
  assert.isTest demo.ascii_rune demo.ascii_IsLower "Testify" "Test" = false /\
  assert.isTest demo.ascii_rune demo.ascii_IsLower "BenchmarkX" "Test" = false.
Proof. repeat split. Qed.

(** The checks over slices of ints. *)
Example shouldAllOfInt_examples :
  assert.shouldAllOfInt pretty [2; 4; 7; 9] Z.even
    = (true, "Predicate failed for element in target: 7") /\
  assert.shouldAnyOfInt [2; 4; 7; 9] Z.odd = (false, "") /\
  assert.shouldNoneOfInt pretty [] Z.odd = (false, "").
Proof. repeat split. Qed.

(** ** More of the dashboard *)

